(** * Detection-to-identity pipeline of object_detection.ai

    A shallow embedding of [backend/utils.py], [backend/detector.py],
    [backend/tracker.py] and of [backend/main.py] (the preparation of a
    frame and the handling of the tracker), followed by the properties of
    the pipeline.  The model inference, the suppression of overlapping
    boxes and the image codec are library calls and are not embedded.

    Conventions of the embedding.
    - Python [int]s are [Z]; Python [float]s are the rationals they denote
      ([Q]); comparisons of floats are comparisons of those rationals.
    - The value of [math.sqrt] on an integer is kept symbolic ([Sqrt n]);
      comparing two such values compares the radicands, comparing one with
      a rational compares squares (exact for pixel coordinates, whose
      squared distances are far below 2^52).  Rounding of [math.sqrt], of
      the float division and of [round] is not modelled.
    - A Python [dict] keyed by ints is an association list in insertion
      order (iteration order matters for ties in the nearest-track scan);
      [d[k]] and [del d[k]] on an absent key raise [KeyError], which is
      [None] in the option monad.
    - The detection dictionaries of a frame are distinct objects (the
      detector builds a fresh one for every box), so storing keys in one
      of them does not change another.
    - [time.time()] is an argument ([current_time_ms]) of [update]. *)

From Stdlib Require Import ZArith QArith Qround Qabs List Sorted Permutation String Ascii Bool Lia.
From Stdlib Require Import Reals Qreals Psatz.
From stdpp Require Import base option list gmap strings.
Import ListNotations.

#[local] Open Scope Z_scope.

(* ===================================================================== *)
(** ** Python primitives                                                  *)
(* ===================================================================== *)

Module Py.

(** *** [str] methods on ASCII strings *)

Definition isupper (c : ascii) : bool :=
  let n := nat_of_ascii c in (Nat.leb 65 n && Nat.leb n 90)%bool.

Definition islower (c : ascii) : bool :=
  let n := nat_of_ascii c in (Nat.leb 97 n && Nat.leb n 122)%bool.

Definition toupper (c : ascii) : ascii :=
  if islower c then ascii_of_nat (nat_of_ascii c - 32) else c.

Definition tolower (c : ascii) : ascii :=
  if isupper c then ascii_of_nat (nat_of_ascii c + 32) else c.

Fixpoint lower (s : string) : string :=
  match s with
  | EmptyString => EmptyString
  | String c r => String (tolower c) (lower r)
  end.

(** [s.capitalize()]: first character upper-cased, the rest lower-cased. *)
Definition capitalize (s : string) : string :=
  match s with
  | EmptyString => EmptyString
  | String c r => String (toupper c) (lower r)
  end.

(** [s.title()]: a cased character is upper-cased when it follows an
    uncased one and lower-cased when it follows a cased one. *)
Fixpoint title_from (previous_is_cased : bool) (s : string) : string :=
  match s with
  | EmptyString => EmptyString
  | String c r =>
      if islower c then
        String (if previous_is_cased then c else toupper c) (title_from true r)
      else if isupper c then
        String (if previous_is_cased then tolower c else c) (title_from true r)
      else String c (title_from false r)
  end.

Definition title (s : string) : string := title_from false s.

(** *** Floats as rationals *)

Definition Qltb (x y : Q) : bool := negb (Qle_bool y x).

(** [max(a, b)]: the first argument unless the second is strictly greater. *)
Definition max (a b : Q) : Q := if Qltb a b then b else a.

(** [round(x, 1)]: nearest multiple of 1/10, ties to the even one. *)
Definition round1 (x : Q) : Q :=
  let y := (x * 10)%Q in
  let f := Qfloor y in
  let r := (y - inject_Z f)%Q in
  let n := if Qltb r (1 # 2) then f
           else if Qltb (1 # 2) r then f + 1
           else if Z.even f then f else f + 1 in
  (inject_Z n / 10)%Q.

(** *** Insertion-ordered [dict] with [int] keys *)

Definition dict (V : Type) : Type := list (Z * V).

Fixpoint get {V} (k : Z) (d : dict V) : option V :=
  match d with
  | [] => None
  | (k', v) :: r => if Z.eqb k k' then Some v else get k r
  end.

(** [d[k] = v]: replaces the value in place when [k] is present, appends
    the item otherwise. *)
Fixpoint set {V} (k : Z) (v : V) (d : dict V) : dict V :=
  match d with
  | [] => [(k, v)]
  | (k', v') :: r => if Z.eqb k k' then (k', v) :: r else (k', v') :: set k v r
  end.

(** In-place mutation of the value stored at [k] (the value of [d[k]] is
    itself a mutable dict in the source). *)
Fixpoint modify {V} (k : Z) (f : V -> V) (d : dict V) : dict V :=
  match d with
  | [] => []
  | (k', v) :: r => if Z.eqb k k' then (k', f v) :: r else (k', v) :: modify k f r
  end.

(** [del d[k]] *)
Fixpoint del {V} (k : Z) (d : dict V) : option (dict V) :=
  match d with
  | [] => None
  | (k', v) :: r =>
      if Z.eqb k k' then Some r
      else r' ← del k r; Some ((k', v) :: r')
  end.

Definition keys {V} (d : dict V) : list Z := map fst d.


(** [sep in s] for a one-character [sep]. *)
Fixpoint contains (sep : ascii) (s : string) : bool :=
  match s with
  | EmptyString => false
  | String c r => if Ascii.eqb c sep then true else contains sep r
  end.

(** [s.split(sep)] for a one-character [sep]: the pieces between the
    separators; never empty ([""] for the empty string). *)
Fixpoint split (sep : ascii) (s : string) : list string :=
  match s with
  | EmptyString => [EmptyString]
  | String c r =>
      if Ascii.eqb c sep then EmptyString :: split sep r
      else match split sep r with
           | piece :: pieces => String c piece :: pieces
           | [] => [String c EmptyString]
           end
  end.

(** Keys of a Python dict are pairwise distinct. *)
Definition wf {V} (d : dict V) : Prop := NoDup (keys d).

End Py.

(* ===================================================================== *)
(** ** utils.py                                                           *)
(* ===================================================================== *)

Definition format_spoken_text (color shape size : string) (similarity : Q) : string :=
  Py.capitalize shape.

Module Utils.

#[local] Open Scope string_scope.

Definition COLOR_ADJACENCY : gmap string (list string) :=
  list_to_map [
    ("red", ["orange"; "pink"]);
    ("orange", ["red"; "yellow"; "brown"]);
    ("yellow", ["orange"; "green"]);
    ("green", ["yellow"; "blue"]);
    ("blue", ["green"; "purple"]);
    ("purple", ["blue"; "pink"]);
    ("pink", ["purple"; "red"]);
    ("brown", ["orange"]);
    ("black", ["gray"]);
    ("white", ["gray"]);
    ("gray", ["black"; "white"])
  ].

Definition SIZE_CENTERS : gmap string Q :=
  list_to_map [
    ("small", (15 # 1000)%Q);
    ("medium", (75 # 1000)%Q);
    ("large", (20 # 100)%Q)
  ].

Definition hsv_to_color_name (h s v : Z) : string :=
  if (v <? 50)%Z then "black"
  else if (s <? 30)%Z then (if (200 <? v)%Z then "white" else "gray")
  else if (((0 <=? h) && (h <=? 10)) || (170 <=? h))%Z then "red"
  else if ((11 <=? h) && (h <=? 20))%Z then (if (v <? 150)%Z then "brown" else "orange")
  else if ((21 <=? h) && (h <=? 35))%Z then "yellow"
  else if ((36 <=? h) && (h <=? 85))%Z then "green"
  else if ((86 <=? h) && (h <=? 125))%Z then "blue"
  else if ((126 <=? h) && (h <=? 150))%Z then "purple"
  else if ((151 <=? h) && (h <=? 169))%Z then "pink"
  else "gray".

Definition get_size_bucket (box_ratio : Q) : string :=
  if Py.Qltb box_ratio (3 # 100) then "small"
  else if Py.Qltb box_ratio (12 # 100) then "medium"
  else "large".

Definition color_similarity (color1 color2 : string) : Q :=
  if String.eqb color1 color2 then 1%Q
  else if bool_decide (color2 ∈ default [] (COLOR_ADJACENCY !! color1)) then (6 # 10)%Q
  else 0%Q.


(** [SIZE_CENTERS[size_bucket]] raises [KeyError] on an unknown bucket. *)
Definition size_similarity (box_ratio : Q) (size_bucket : string) : option Q :=
  center ← SIZE_CENTERS !! size_bucket;
  let distance := Qabs (box_ratio - center) in
  Some (Py.max 0 (1 - distance / (20 # 100))%Q).



End Utils.

(* ===================================================================== *)
(** ** detector.py                                                        *)
(* ===================================================================== *)

(** The request configuration: a JSON object read with [config.get]. *)
Record config := {
  min_similarity : option Q;
  speak_cooldown_ms : option Z
}.

(** A detection dictionary.  The ten keys written by the detector are
    always present; the three keys added by the tracker are absent
    ([None]) until [ObjectTracker.update] stores them. *)
Record detection := {
  d_bbox : Z * Z * Z * Z;
  d_centroid : Z * Z;
  d_color : string;
  d_shape : string;
  d_size : string;
  d_label : string;
  d_similarity : Q;
  d_area : Z;
  d_class_name : string;
  d_confidence : Q;
  d_id : option Z;
  d_should_speak : option bool;
  d_spoken_text : option string
}.

Module ObjectDetector.

#[local] Open Scope string_scope.

Definition COCO_CLASSES : list string := [
  "person"; "bicycle"; "car"; "motorcycle"; "airplane"; "bus"; "train"; "truck"; "boat";
  "traffic light"; "fire hydrant"; "stop sign"; "parking meter"; "bench"; "bird"; "cat";
  "dog"; "horse"; "sheep"; "cow"; "elephant"; "bear"; "zebra"; "giraffe"; "backpack";
  "umbrella"; "handbag"; "tie"; "suitcase"; "frisbee"; "skis"; "snowboard"; "sports ball";
  "kite"; "baseball bat"; "baseball glove"; "skateboard"; "surfboard"; "tennis racket";
  "bottle"; "wine glass"; "cup"; "fork"; "knife"; "spoon"; "bowl"; "banana"; "apple";
  "sandwich"; "orange"; "broccoli"; "carrot"; "hot dog"; "pizza"; "donut"; "cake";
  "chair"; "couch"; "potted plant"; "bed"; "dining table"; "toilet"; "tv"; "laptop";
  "mouse"; "remote"; "keyboard"; "cell phone"; "microwave"; "oven"; "toaster"; "sink";
  "refrigerator"; "book"; "clock"; "vase"; "scissors"; "teddy bear"; "hair drier";
  "toothbrush"
].

(** [min_conf = max(0.30, config.get("min_similarity", 30) / 100.0)] *)
Definition min_conf (cfg : config) : Q :=
  Py.max (3 # 10) (default (30 : Q) (min_similarity cfg) / 100)%Q.




(** The dictionary appended to [detections] for a kept box [boxes[i]]
    with score [confs[i]] and class [class_ids[i]]. *)
Definition make_detection (box : Z * Z * Z * Z) (conf : Q) (cid : nat) : detection :=
  let '(x, y, bw, bh) := box in
  let name := if Nat.ltb cid (List.length COCO_CLASSES)
              then nth cid COCO_CLASSES "unknown" else "unknown" in
  {| d_bbox := (x, y, bw, bh);
     d_centroid := (x + bw / 2, y + bh / 2);
     d_color := "unknown";
     d_shape := name;
     d_size := "medium";
     d_label := Py.title name;
     d_similarity := Py.round1 (conf * 100)%Q;
     d_area := bw * bh;
     d_class_name := name;
     d_confidence := conf;
     d_id := None;
     d_should_speak := None;
     d_spoken_text := None |}.


(** [sorted(detections, key=lambda d: d['confidence'], reverse=True)]:
    the stable sort by decreasing confidence, as an insertion sort that
    puts an element in front of the elements that are not strictly more
    confident (those came later in the input). *)
Fixpoint insert_by_confidence (d : detection) (l : list detection) : list detection :=
  match l with
  | [] => [d]
  | e :: r =>
      if Py.Qltb (d_confidence d) (d_confidence e)
      then e :: insert_by_confidence d r
      else d :: e :: r
  end.

Definition sorted_by_confidence (l : list detection) : list detection :=
  fold_right insert_by_confidence [] l.

(** Lines 92-116: the result of [detect_objects] from the boxes, scores
    and classes that survive the suppression. *)
Definition detections_of (kept : list (Z * Z * Z * Z * Q * nat)) : list detection :=
  sorted_by_confidence
    (map (λ k, make_detection (fst (fst k)) (snd (fst k)) (snd k)) kept).

End ObjectDetector.

(* ===================================================================== *)
(** ** tracker.py                                                         *)
(* ===================================================================== *)

(** The value of [tracked_objects[id]]. *)
Record track := {
  centroid : Z * Z;
  last_seen_ms : Z;
  last_spoken_ms : Z;
  last_label : string
}.

Record ObjectTracker := {
  max_distance : Z;
  next_id : Z;
  tracked_objects : Py.dict track
}.

(** Distances handled by the tracker: [math.sqrt] of an integer, or
    [float('inf')]. *)
Inductive distance :=
| Sqrt (n : Z)
| Inf.

(** [a < b] on distances. *)
Definition distance_ltb (a b : distance) : bool :=
  match a, b with
  | Sqrt n, Sqrt m => n <? m
  | Sqrt _, Inf => true
  | Inf, _ => false
  end.

(** [a < q] for a distance and a float: [sqrt n < q] iff [q] is positive
    and [n < q * q] (the radicand is a sum of squares). *)
Definition distance_lt_float (a : distance) (q : Q) : bool :=
  match a with
  | Sqrt n => Py.Qltb 0 q && Py.Qltb (inject_Z n) (q * q)
  | Inf => false
  end.

(** The three dictionary stores made on a detection at the end of a loop
    iteration. *)
Definition annotate (d : detection) (obj_id : Z) (should_speak : bool) (text : string) : detection :=
  {| d_bbox := d_bbox d; d_centroid := d_centroid d; d_color := d_color d;
     d_shape := d_shape d; d_size := d_size d; d_label := d_label d;
     d_similarity := d_similarity d; d_area := d_area d;
     d_class_name := d_class_name d; d_confidence := d_confidence d;
     d_id := Some obj_id;
     d_should_speak := Some should_speak;
     d_spoken_text := Some text |}.

Module Tracker.

(** [ObjectTracker(max_distance)] *)
Definition init (max_distance : Z) : ObjectTracker :=
  {| max_distance := max_distance; next_id := 1; tracked_objects := [] |}.

Definition _calculate_distance (p1 p2 : Z * Z) : distance :=
  Sqrt ((fst p1 - fst p2) ^ 2 + (snd p1 - snd p2) ^ 2).

(** [self.max_distance * (frame_w / 640.0)] *)
Definition scaled_max_dist (self : ObjectTracker) (frame_w : Z) : Q :=
  (inject_Z (max_distance self) * (inject_Z frame_w / 640))%Q.

(** The [for obj_id, obj_data in self.tracked_objects.items()] loop, with
    its two local variables as accumulators. *)
Fixpoint closest_scan (c : Z * Z) (scaled : Q) (items : Py.dict track)
    (closest_id : option Z) (min_distance : distance) : option Z :=
  match items with
  | [] => closest_id
  | (obj_id, obj_data) :: rest =>
      let dist := _calculate_distance c (centroid obj_data) in
      if distance_ltb dist min_distance && distance_lt_float dist scaled
      then closest_scan c scaled rest (Some obj_id) dist
      else closest_scan c scaled rest closest_id min_distance
  end.

Definition _find_closest_match (self : ObjectTracker) (c : Z * Z) (frame_w frame_h : Z)
    : option Z :=
  closest_scan c (scaled_max_dist self frame_w) (tracked_objects self) None Inf.

(** The state threaded through the [for detection in detections] loop. *)
Record loop_state := {
  self : ObjectTracker;
  matched_ids : gset Z;
  updated_detections : list detection
}.

Definition with_objects (t : ObjectTracker) (objs : Py.dict track) : ObjectTracker :=
  {| max_distance := max_distance t; next_id := next_id t; tracked_objects := objs |}.

(** [tracked_objects[obj_id].update({"centroid": .., "last_seen_ms": ..,
    "last_label": ..})] *)
Definition refresh (c : Z * Z) (now : Z) (label : string) (old : track) : track :=
  {| centroid := c; last_seen_ms := now;
     last_spoken_ms := last_spoken_ms old; last_label := label |}.

(** [tracked_objects[obj_id]["last_spoken_ms"] = current_time_ms] *)
Definition spoke (now : Z) (t : track) : track :=
  {| centroid := centroid t; last_seen_ms := last_seen_ms t;
     last_spoken_ms := now; last_label := last_label t |}.

(** One iteration of the detection loop. *)
Definition update_detection (current_time_ms : Z) (min_similarity : Q)
    (speak_cooldown_ms : Z) (frame_w frame_h : Z)
    (s : loop_state) (d : detection) : option loop_state :=
  let c := d_centroid d in
  let label := d_label d in
  let similarity := d_similarity d in
  let text := format_spoken_text (d_color d) (d_shape d) (d_size d) (d_similarity d) in
  match _find_closest_match (self s) c frame_w frame_h with
  | Some obj_id =>
      old_data ← Py.get obj_id (tracked_objects (self s));
      let old_label := last_label old_data in
      let time_since_spoken := current_time_ms - last_spoken_ms old_data in
      let should_speak :=
        if Qle_bool min_similarity similarity
        then negb (String.eqb label old_label) || (speak_cooldown_ms <=? time_since_spoken)
        else false in
      let objs1 := Py.modify obj_id (refresh c current_time_ms label)
                     (tracked_objects (self s)) in
      let objs2 := if should_speak
                   then Py.modify obj_id (spoke current_time_ms) objs1 else objs1 in
      Some {| self := with_objects (self s) objs2;
              matched_ids := matched_ids s ∪ {[obj_id]};
              updated_detections :=
                updated_detections s ++ [annotate d obj_id should_speak text] |}
  | None =>
      let obj_id := next_id (self s) in
      let should_speak := Qle_bool min_similarity similarity in
      let data := {| centroid := c; last_seen_ms := current_time_ms;
                     last_spoken_ms := if should_speak then current_time_ms else 0;
                     last_label := label |} in
      Some {| self := {| max_distance := max_distance (self s);
                         next_id := next_id (self s) + 1;
                         tracked_objects := Py.set obj_id data (tracked_objects (self s)) |};
              matched_ids := matched_ids s ∪ {[obj_id]};
              updated_detections :=
                updated_detections s ++ [annotate d obj_id should_speak text] |}
  end.

Fixpoint update_loop (current_time_ms : Z) (min_similarity : Q)
    (speak_cooldown_ms : Z) (frame_w frame_h : Z)
    (s : loop_state) (detections : list detection) : option loop_state :=
  match detections with
  | [] => Some s
  | d :: rest =>
      s' ← update_detection current_time_ms min_similarity speak_cooldown_ms
             frame_w frame_h s d;
      update_loop current_time_ms min_similarity speak_cooldown_ms frame_w frame_h s' rest
  end.

(** [matched_ids = set()], [updated_detections = []] *)
Definition loop_start (t : ObjectTracker) : loop_state :=
  {| self := t; matched_ids := ∅; updated_detections := [] |}.

Definition timeout_ms : Z := 1000.

(** The test of the expiry scan on one item. *)
Definition expired (current_time_ms : Z) (matched : gset Z) (item : Z * track) : bool :=
  bool_decide (fst item ∉ matched)
  && (timeout_ms <? current_time_ms - last_seen_ms (snd item)).

Definition ids_to_remove (current_time_ms : Z) (matched : gset Z)
    (objs : Py.dict track) : list Z :=
  map fst (List.filter (expired current_time_ms matched) objs).

(** [for obj_id in ids_to_remove: del self.tracked_objects[obj_id]] *)
Fixpoint remove_all (ids : list Z) (objs : Py.dict track) : option (Py.dict track) :=
  match ids with
  | [] => Some objs
  | i :: rest => objs' ← Py.del i objs; remove_all rest objs'
  end.

Definition update (t : ObjectTracker) (detections : list detection)
    (frame_w frame_h : Z) (cfg : config) (current_time_ms : Z)
    : option (ObjectTracker * list detection) :=
  let min_sim := default (70 : Q) (min_similarity cfg) in
  let cooldown := default 2000 (speak_cooldown_ms cfg) in
  s ← update_loop current_time_ms min_sim cooldown frame_w frame_h
        (loop_start t) detections;
  objs ← remove_all (ids_to_remove current_time_ms (matched_ids s)
                       (tracked_objects (self s)))
           (tracked_objects (self s));
  Some (with_objects (self s) objs, updated_detections s).

Definition reset (t : ObjectTracker) : ObjectTracker :=
  {| max_distance := max_distance t; next_id := 1; tracked_objects := [] |}.

End Tracker.

(* ===================================================================== *)
(** ** main.py                                                            *)
(* ===================================================================== *)

Module Server.

(** The module-level [tracker = ObjectTracker()]; the detector holds no
    state that a request changes. *)
Definition tracker0 : ObjectTracker := Tracker.init 60.

(** What a connection handler does to the process state between two
    [await]s.  [Accept] is the start of [websocket_endpoint] for a new
    connection; [Malformed] is a message without [jpeg_b64] or whose image
    does not decode; [Frame] is one decoded message, given by the output
    of [detector.detect_objects], the frame size, the request
    configuration and the clock read by [tracker.update]. *)
Inductive event :=
| Accept (client : nat)
| Malformed (client : nat)
| Frame (client : nat) (detections : list detection)
        (frame_w frame_h : Z) (cfg : config) (now : Z).

Definition client_of (e : event) : nat :=
  match e with
  | Accept c => c
  | Malformed c => c
  | Frame c _ _ _ _ _ => c
  end.

(** An element of [response_detections]: the ten public keys copied from
    the tracker's output; [area], [class_name] and [confidence] are not
    sent. *)
Record response_detection := {
  r_id : option Z;
  r_bbox : Z * Z * Z * Z;
  r_centroid : Z * Z;
  r_color : string;
  r_shape : string;
  r_size : string;
  r_label : string;
  r_similarity : Q;
  r_should_speak : option bool;
  r_spoken_text : option string
}.

Definition response_of (d : detection) : response_detection :=
  {| r_id := d_id d; r_bbox := d_bbox d; r_centroid := d_centroid d;
     r_color := d_color d; r_shape := d_shape d; r_size := d_size d;
     r_label := d_label d; r_similarity := d_similarity d;
     r_should_speak := d_should_speak d; r_spoken_text := d_spoken_text d |}.

(** The message sent back on the connection, if any. *)
Inductive reply :=
| Detections (frame_w frame_h : Z) (detections : list response_detection)
| Error.

(** One event against the global tracker: the new global tracker and the
    reply sent to the event's client. *)
Definition step (tracker : ObjectTracker) (e : event) : ObjectTracker * option reply :=
  match e with
  | Accept _ => (Tracker.reset tracker, None)
  | Malformed _ => (tracker, Some Error)
  | Frame _ detections frame_w frame_h cfg now =>
      match Tracker.update tracker detections frame_w frame_h cfg now with
      | Some (tracker', out) =>
          (tracker', Some (Detections frame_w frame_h (map response_of out)))
      | None => (tracker, Some Error)   (* [except Exception]: not reached,
                                           [update] returns on every dict *)
      end
  end.

(** The replies of a run, each with the client it is sent to. *)
Fixpoint run (tracker : ObjectTracker) (trace : list event) : list (nat * reply) :=
  match trace with
  | [] => []
  | e :: rest =>
      let '(tracker', r) := step tracker e in
      match r with
      | Some m => (client_of e, m) :: run tracker' rest
      | None => run tracker' rest
      end
  end.

Definition replies_to (c : nat) (rs : list (nat * reply)) : list reply :=
  map snd (List.filter (fun r => Nat.eqb (fst r) c) rs).

Definition events_of (c : nat) (trace : list event) : list event :=
  List.filter (fun e => Nat.eqb (client_of e) c) trace.

(** [decode_jpeg_base64], up to the base64 decoding: the removal of a
    data-URL prefix.  [None] is the [IndexError] of [split(",")[1]]. *)
Definition strip_data_url (jpeg_b64 : string) : option string :=
  if Py.contains "," jpeg_b64
  then nth_error (Py.split "," jpeg_b64) 1
  else Some jpeg_b64.


End Server.


(* ===================================================================== *)
(** ** Vocabulary of the properties                                       *)
(* ===================================================================== *)


(** The integer whose square root [_calculate_distance] returns. *)
Definition radicand (p q : Z * Z) : Z :=
  (fst p - fst q) ^ 2 + (snd p - snd q) ^ 2.

(** A track lies within the matching radius of a detection centroid: the
    second test of the nearest-track scan. *)
Definition within (c : Z * Z) (scaled : Q) (tr : track) : Prop :=
  distance_lt_float (Tracker._calculate_distance c (centroid tr)) scaled = true.

(** The relation between an input detection and the element returned for
    it: the same dictionary with the three tracking keys stored. *)
Definition annotated (d o : detection) : Prop :=
  ∃ i sp, o = annotate d i sp
                (format_spoken_text (d_color d) (d_shape d) (d_size d) (d_similarity d)).

(** The invariant of a tracker built by [ObjectTracker()], [update] and
    [reset]: the tracks sit in the dictionary in increasing id order, and
    every id in use was handed out by the counter. *)
Definition tracker_inv (t : ObjectTracker) : Prop :=
  StronglySorted Z.lt (Py.keys (tracked_objects t)) ∧ 1 ≤ next_id t ∧
  ∀ k, k ∈ Py.keys (tracked_objects t) → 1 ≤ k < next_id t.

(** Decreasing confidence along a list of detections. *)
Definition by_confidence (a b : detection) : Prop := (d_confidence b <= d_confidence a)%Q.

(** A loop state whose [matched_ids] is replaced by another set. *)
Definition with_matched (s : Tracker.loop_state) (m : gset Z) : Tracker.loop_state :=
  {| Tracker.self := Tracker.self s; Tracker.matched_ids := m;
     Tracker.updated_detections := Tracker.updated_detections s |}.

(** The same event sent on another connection. *)
Definition relabel (f : nat → nat) (e : Server.event) : Server.event :=
  match e with
  | Server.Accept c => Server.Accept (f c)
  | Server.Malformed c => Server.Malformed (f c)
  | Server.Frame c dets w h cfg now => Server.Frame (f c) dets w h cfg now
  end.

(** The global tracker after a run of the server. *)
Fixpoint tracker_after (tracker : ObjectTracker) (trace : list Server.event) : ObjectTracker :=
  match trace with
  | [] => tracker
  | e :: rest => tracker_after (fst (Server.step tracker e)) rest
  end.

(** A session of one tracker: the successive [update] calls made on it. *)
Module Session.

Record frame := {
  detections : list detection;
  frame_w : Z;
  frame_h : Z;
  cfg : config;
  now : Z
}.

(** The ids taken from [next_id] by the new-object branch while the
    detection loop runs, in allocation order. *)
Fixpoint allocated_loop (current_time_ms : Z) (min_sim : Q) (cooldown : Z)
    (fw fh : Z) (s : Tracker.loop_state) (dets : list detection) : list Z :=
  match dets with
  | [] => []
  | d :: rest =>
      match Tracker.update_detection current_time_ms min_sim cooldown fw fh s d with
      | Some s' =>
          match Tracker._find_closest_match (Tracker.self s) (d_centroid d) fw fh with
          | Some _ => allocated_loop current_time_ms min_sim cooldown fw fh s' rest
          | None =>
              next_id (Tracker.self s)
              :: allocated_loop current_time_ms min_sim cooldown fw fh s' rest
          end
      | None => []
      end
  end.

Definition allocated (t : ObjectTracker) (f : frame) : list Z :=
  allocated_loop (now f) (default (70 : Q) (min_similarity (cfg f)))
    (default 2000 (speak_cooldown_ms (cfg f))) (frame_w f) (frame_h f)
    (Tracker.loop_start t) (detections f).

(** The tracker after the calls of a session, with every id allocated on
    the way. *)
Fixpoint run (t : ObjectTracker) (frames : list frame) : option (ObjectTracker * list Z) :=
  match frames with
  | [] => Some (t, [])
  | f :: rest =>
      r ← Tracker.update t (detections f) (frame_w f) (frame_h f) (cfg f) (now f);
      r' ← run (fst r) rest;
      Some (fst r', allocated t f ++ snd r')
  end.

End Session.

(** Data of the worked scenarios: a cup seen at a given place with a
    given similarity, in 640x480 frames, with [min_similarity = 70]. *)
Module Ex.

Definition cup (c : Z * Z) (sim : Q) : detection :=
  {| d_bbox := (fst c - 10, snd c - 10, 20, 20); d_centroid := c;
     d_color := "unknown"; d_shape := "cup"; d_size := "medium";
     d_label := "Cup"; d_similarity := sim; d_area := 400;
     d_class_name := "cup"; d_confidence := (sim / 100)%Q;
     d_id := None; d_should_speak := None; d_spoken_text := None |}.

Definition cfg70 : config :=
  {| min_similarity := Some (70 : Q); speak_cooldown_ms := None |}.

(** A tracker that already follows one cup at (100, 100), seen and
    announced at time 5000. *)
Definition one_cup : ObjectTracker :=
  {| max_distance := 60; next_id := 2;
     tracked_objects :=
       [(1, {| centroid := (100, 100); last_seen_ms := 5000;
               last_spoken_ms := 5000; last_label := "Cup" |})] |}.

(** What a caller reads off the result of [update]. *)
Definition verdicts (r : option (ObjectTracker * list detection))
    : option (list (option Z * option bool)) :=
  (λ p, map (λ o, (d_id o, d_should_speak o)) (snd p)) <$> r.

(** [update] on the tracker returned by an earlier call. *)
Definition then_update (r : option (ObjectTracker * list detection))
    (dets : list detection) (now : Z) : option (ObjectTracker * list detection) :=
  p ← r; Tracker.update (fst p) dets 640 480 cfg70 now.

(** Two clients connected at the same time: client 0 shows a cup, then
    client 1 shows another one elsewhere. *)
Definition two_clients : list Server.event :=
  [ Server.Accept 1; Server.Accept 0;
    Server.Frame 0 [cup (100, 100) 85] 640 480 cfg70 5000;
    Server.Frame 1 [cup (400, 300) 85] 640 480 cfg70 5100 ].

End Ex.

(** [k; k+1; ...] of length [n]. *)
Fixpoint zseq (k : Z) (n : nat) : list Z :=
  match n with
  | O => []
  | S n' => k :: zseq (k + 1) n'
  end.

(* ===================================================================== *)
(** ** Worked scenarios                                                   *)
(* ===================================================================== *)

(** First sight of an object above the threshold: track 1, announced. *)
Example scenario_first_sight :
  Ex.verdicts (Tracker.update (Tracker.init 60) [Ex.cup (100, 100) 85] 640 480 Ex.cfg70 5000)
  = Some [(Some 1, Some true)].
Proof. reflexivity. Qed.

(** 200 ms later, 5.8 px away: same track, not announced again. *)
Example scenario_cooldown :
  Ex.verdicts (Tracker.update Ex.one_cup [Ex.cup (105, 103) 85] 640 480 Ex.cfg70 5200)
  = Some [(Some 1, Some false)].
Proof. reflexivity. Qed.

(** 2100 ms after the announcement: same track, announced again. *)
Example scenario_cooldown_elapsed :
  Ex.verdicts (Tracker.update Ex.one_cup [Ex.cup (105, 103) 85] 640 480 Ex.cfg70 7100)
  = Some [(Some 1, Some true)].
Proof. reflexivity. Qed.

(** An empty frame 1200 ms after the last sight drops the track; the
    object then comes back under id 2. *)
Example scenario_reappearance :
  Ex.verdicts (Ex.then_update (Tracker.update Ex.one_cup [] 640 480 Ex.cfg70 6200)
                 [Ex.cup (100, 100) 85] 6300)
  = Some [(Some 2, Some true)].
Proof. reflexivity. Qed.

(** Without a call to [update] in between nothing expires: the object is
    matched to its old track however long it was away. *)
Example scenario_no_frame_no_expiry :
  Ex.verdicts (Tracker.update Ex.one_cup [Ex.cup (100, 100) 85] 640 480 Ex.cfg70 60000)
  = Some [(Some 1, Some true)].
Proof. reflexivity. Qed.

(** A distance equal to the scaled radius is not a match: (160, 100) is
    exactly 60 px from (100, 100) in a 640 px wide frame. *)
Example scenario_radius_is_strict :
  Ex.verdicts (Tracker.update Ex.one_cup [Ex.cup (160, 100) 85; Ex.cup (41, 100) 85]
                 640 480 Ex.cfg70 5200)
  = Some [(Some 2, Some true); (Some 1, Some false)].
Proof. reflexivity. Qed.

(** Ids allocated over a session in which the first track expires. *)
Example scenario_allocation :
  snd <$> Session.run (Tracker.init 60)
    [ {| Session.detections := [Ex.cup (100, 100) 85]; Session.frame_w := 640;
         Session.frame_h := 480; Session.cfg := Ex.cfg70; Session.now := 5000 |};
      {| Session.detections := []; Session.frame_w := 640;
         Session.frame_h := 480; Session.cfg := Ex.cfg70; Session.now := 6200 |};
      {| Session.detections := [Ex.cup (100, 100) 85; Ex.cup (300, 300) 85];
         Session.frame_w := 640;
         Session.frame_h := 480; Session.cfg := Ex.cfg70; Session.now := 6300 |} ]
  = Some [1; 2; 3].
Proof. reflexivity. Qed.

Example scenario_detector_dictionary :
  let d := ObjectDetector.make_detection (10, 20, 31, 40) (87654 # 100000) 9 in
  (d_centroid d, d_class_name d, d_label d, Qeq_bool (d_similarity d) (877 # 10))
  = ((25, 40), "traffic light"%string, "Traffic Light"%string, true).
Proof. reflexivity. Qed.

(* ===================================================================== *)
(** ** Lemmas on the Python primitives                                    *)
(* ===================================================================== *)

Section dict_lemmas.
Context {V : Type}.
Implicit Types (d : Py.dict V) (k : Z) (v : V).

Lemma get_is_Some k d : is_Some (Py.get k d) ↔ k ∈ Py.keys d.
Proof.
  induction d as [|[k' v'] r IH]; simpl.
  - split; [intros [? ?]; discriminate | intros H; inversion H].
  - destruct (Z.eqb_spec k k') as [->|Hne].
    + split; [intros _; left | eauto].
    + rewrite IH. split; [right; done | intros H; inversion H; subst; done].
Qed.

Lemma get_elem_of k v d : Py.get k d = Some v → (k, v) ∈ d.
Proof.
  induction d as [|[k' v'] r IH]; simpl; [done|].
  destruct (Z.eqb_spec k k') as [->|Hne].
  - intros [= ->]. left.
  - intros H. right. auto.
Qed.

Lemma elem_of_get k v d : Py.wf d → (k, v) ∈ d → Py.get k d = Some v.
Proof.
  unfold Py.wf. induction d as [|[k' v'] r IH]; simpl; intros Hnd Hin.
  - inversion Hin.
  - apply NoDup_cons in Hnd as [Hk Hnd].
    apply elem_of_cons in Hin as [[= -> ->]|Hin].
    + by rewrite Z.eqb_refl.
    + destruct (Z.eqb_spec k k') as [->|Hne]; [|auto].
      exfalso. apply Hk. unfold Py.keys. apply list_elem_of_fmap.
      by exists (k', v).
Qed.

Lemma keys_modify k (f : V → V) d : Py.keys (Py.modify k f d) = Py.keys d.
Proof.
  induction d as [|[k' v'] r IH]; simpl; [done|].
  destruct (k =? k'); simpl; [done | by rewrite IH].
Qed.

Lemma get_modify k k' (f : V → V) d :
  Py.get k' (Py.modify k f d) = if decide (k' = k) then f <$> Py.get k d else Py.get k' d.
Proof.
  induction d as [|[k0 v0] r IH]; simpl.
  - by case_decide.
  - destruct (Z.eqb_spec k k0) as [->|Hne]; simpl.
    + case_decide as Hd; [subst; by rewrite Z.eqb_refl|].
      by destruct (Z.eqb_spec k' k0).
    + rewrite IH. destruct (Z.eqb_spec k' k0) as [->|Hne']; [|done].
      case_decide; [congruence | done].
Qed.

Lemma modify_app k (f : V → V) l1 v l2 :
  k ∉ Py.keys l1 →
  Py.modify k f (l1 ++ (k, v) :: l2) = l1 ++ (k, f v) :: l2.
Proof.
  induction l1 as [|[k0 v0] r IH]; simpl; intros Hk.
  - by rewrite Z.eqb_refl.
  - apply not_elem_of_cons in Hk as [Hne Hk].
    destruct (Z.eqb_spec k k0); [done|]. by rewrite IH.
Qed.

Lemma keys_set k v d :
  Py.keys (Py.set k v d) = if decide (k ∈ Py.keys d) then Py.keys d else Py.keys d ++ [k].
Proof.
  induction d as [|[k0 v0] r IH]; cbn [Py.set Py.keys map fst].
  - destruct (decide (k ∈ [])) as [H|H]; [inversion H | done].
  - destruct (Z.eqb_spec k k0) as [->|Hne]; cbn [Py.keys map fst].
    + destruct (decide (k0 ∈ k0 :: map fst r)) as [H|H]; [done|].
      exfalso. apply H. left.
    + fold (Py.keys (Py.set k v r)). rewrite IH. unfold Py.keys.
      destruct (decide (k ∈ map fst r)) as [H1|H1];
        destruct (decide (k ∈ k0 :: map fst r)) as [H2|H2]; try done.
      * exfalso. apply H2. by right.
      * exfalso. apply elem_of_cons in H2 as [?|?]; done.
Qed.

Lemma get_set k k' v d :
  Py.get k' (Py.set k v d) = if decide (k' = k) then Some v else Py.get k' d.
Proof.
  induction d as [|[k0 v0] r IH]; simpl.
  - destruct (Z.eqb_spec k' k); case_decide; done.
  - destruct (Z.eqb_spec k k0) as [->|Hne]; simpl.
    + destruct (Z.eqb_spec k' k0); case_decide; done.
    + rewrite IH. destruct (Z.eqb_spec k' k0) as [->|?]; [|done].
      case_decide; [congruence | done].
Qed.

(** [d[k] = v] leaves a prefix of [d] in front of the stored item. *)
Lemma set_split k v d :
  ∃ l1 l2, Py.set k v d = l1 ++ (k, v) :: l2 ∧ (∀ x, x ∈ l1 → x ∈ d).
Proof.
  induction d as [|[k0 v0] r IH]; simpl.
  - exists [], []. split; [done | intros x H; inversion H].
  - destruct IH as (l1 & l2 & IH & Hsub).
    destruct (Z.eqb_spec k k0) as [->|Hne].
    + exists [], r. split; [done | intros x H; inversion H].
    + exists ((k0, v0) :: l1), l2. rewrite IH. split; [done|].
      intros x [->|Hx]%elem_of_cons; [left | right; auto].
Qed.

Lemma wf_modify k (f : V → V) d : Py.wf d → Py.wf (Py.modify k f d).
Proof. unfold Py.wf. by rewrite keys_modify. Qed.

Lemma wf_set k v d : Py.wf d → Py.wf (Py.set k v d).
Proof.
  unfold Py.wf. rewrite keys_set. case_decide as H; [done|].
  intros Hnd. apply NoDup_app. split; [done|]. split.
  - intros x Hx [->|Hx']%elem_of_cons; [done | inversion Hx'].
  - apply NoDup_singleton.
Qed.

Lemma del_cons_ne k k' v d :
  k ≠ k' → Py.del k ((k', v) :: d) = (λ r, (k', v) :: r) <$> Py.del k d.
Proof.
  intros Hne. simpl. destruct (Z.eqb_spec k k'); [done|].
  by destruct (Py.del k d).
Qed.

Lemma get_filter (P : Z * V → bool) k d :
  Py.wf d →
  Py.get k (List.filter P d)
  = v ← Py.get k d; if P (k, v) then Some v else None.
Proof.
  unfold Py.wf. induction d as [|[k0 v0] r IH]; simpl; [done|].
  intros [Hk Hnd]%NoDup_cons.
  destruct (Z.eqb_spec k k0) as [->|Hne]; simpl.
  - destruct (P (k0, v0)) eqn:HP; simpl.
    + by rewrite Z.eqb_refl.
    + destruct (Py.get k0 (List.filter P r)) eqn:Hg; [|done].
      exfalso. apply Hk. apply get_elem_of in Hg.
      apply list_elem_of_In, filter_In in Hg as [Hg _].
      apply list_elem_of_In in Hg. apply list_elem_of_fmap. by exists (k0, v).
  - destruct (P (k0, v0)); simpl; [|auto].
    destruct (Z.eqb_spec k k0); [done | auto].
Qed.

End dict_lemmas.

Lemma remove_all_cons_notin ids k v (d : Py.dict track) :
  k ∉ ids →
  Tracker.remove_all ids ((k, v) :: d) = (λ r, (k, v) :: r) <$> Tracker.remove_all ids d.
Proof.
  revert d. induction ids as [|i rest IH]; intros d Hk; [done|].
  apply not_elem_of_cons in Hk as [Hne Hk].
  cbn [Tracker.remove_all]. rewrite del_cons_ne by done.
  destruct (Py.del i d) as [d'|]; simpl; [by apply IH | done].
Qed.

(** Deleting the keys selected by a scan of a dict leaves the items the
    scan did not select, in order. *)
Lemma remove_all_filter (P : Z * track → bool) (d : Py.dict track) :
  Py.wf d →
  Tracker.remove_all (map fst (List.filter P d)) d
  = Some (List.filter (λ it, negb (P it)) d).
Proof.
  unfold Py.wf. induction d as [|[k v] r IH]; [done|].
  intros [Hk Hnd]%NoDup_cons. cbn [List.filter].
  destruct (P (k, v)) eqn:HP; cbn [negb map fst Tracker.remove_all].
  - cbn [Py.del]. rewrite Z.eqb_refl. simpl. by apply IH.
  - rewrite remove_all_cons_notin.
    + by rewrite IH.
    + intros Hin. apply Hk. apply list_elem_of_fmap in Hin as ([k' v'] & -> & Hin).
      apply list_elem_of_In, filter_In in Hin as [Hin _].
      apply list_elem_of_fmap. exists (k', v'). split; [done|].
      by apply list_elem_of_In.
Qed.

Lemma Qltb_lt x y : Py.Qltb x y = true ↔ (x < y)%Q.
Proof.
  unfold Py.Qltb. rewrite negb_true_iff. split.
  - intros H. apply Qnot_le_lt. intros Hle. apply Qle_bool_iff in Hle. congruence.
  - intros H. destruct (Qle_bool y x) eqn:E; [|done].
    apply Qle_bool_iff in E. exfalso. by apply (Qlt_not_le x y).
Qed.

Lemma Qltb_ge x y : Py.Qltb x y = false ↔ (y <= x)%Q.
Proof.
  unfold Py.Qltb. rewrite negb_false_iff. apply Qle_bool_iff.
Qed.

Lemma radicand_nonneg p q : 0 ≤ radicand p q.
Proof. unfold radicand. nia. Qed.

Lemma Q2R_inject_Z n : Q2R (inject_Z n) = IZR n.
Proof. unfold Q2R, inject_Z. simpl. lra. Qed.



Lemma scaled_max_dist_real t fw :
  Q2R (Tracker.scaled_max_dist t fw) = (IZR (max_distance t) * (IZR fw / 640))%R.
Proof.
  unfold Tracker.scaled_max_dist.
  rewrite Q2R_mult, Q2R_div by done. rewrite !Q2R_inject_Z.
  replace (Q2R 640) with 640%R by (unfold Q2R; simpl; lra). done.
Qed.

Lemma scaled_max_dist_pos t fw :
  0 < max_distance t → 0 < fw → (0 < Tracker.scaled_max_dist t fw)%Q.
Proof.
  intros Hm Hw. apply Rlt_Qlt. rewrite scaled_max_dist_real, RMicromega.Q2R_0.
  apply IZR_lt in Hm, Hw. apply Rmult_lt_0_compat; [done|]. lra.
Qed.

(* ===================================================================== *)
(** ** The nearest-track scan                                             *)
(* ===================================================================== *)

Section scan.
Variables (c : Z * Z) (scaled : Q).

Abbreviation rad tr := (radicand c (centroid tr)).
Abbreviation dist tr := (Tracker._calculate_distance c (centroid tr)).

Lemma distance_ltb_trans n m d :
  n < m → distance_ltb (Sqrt m) d = true → distance_ltb (Sqrt n) d = true.
Proof. destruct d; simpl; [|done]. rewrite !Z.ltb_lt. lia. Qed.

Lemma distance_ltb_ge n m d :
  distance_ltb (Sqrt m) d = false → distance_ltb (Sqrt n) d = true → n < m.
Proof. destruct d; simpl; [|done]. rewrite Z.ltb_ge, Z.ltb_lt. lia. Qed.

(** Either no item improved on the accumulators, or the result is the
    last item that did: it is within the radius, strictly closer than
    every item within the radius before it and at least as close as every
    one after it. *)
Lemma closest_scan_spec items cid mind :
  let r := Tracker.closest_scan c scaled items cid mind in
  (r = cid ∧
   ∀ j tr, (j, tr) ∈ items → within c scaled tr → distance_ltb (dist tr) mind = false)
  ∨ (∃ l1 i tr l2,
       items = l1 ++ (i, tr) :: l2 ∧ r = Some i ∧ within c scaled tr ∧
       distance_ltb (dist tr) mind = true ∧
       (∀ j tr', (j, tr') ∈ l1 → within c scaled tr' → rad tr < rad tr') ∧
       (∀ j tr', (j, tr') ∈ l2 → within c scaled tr' → rad tr ≤ rad tr')).
Proof.
  revert cid mind. induction items as [|[j tj] rest IH]; intros cid mind;
    cbn [Tracker.closest_scan].
  { left. split; [done|]. intros ? ? H. inversion H. }
  destruct (distance_ltb (dist tj) mind) eqn:Hlt;
    destruct (distance_lt_float (dist tj) scaled) eqn:Hw; cbn [andb].
  1: destruct (IH (Some j) (dist tj))
       as [[Hr Hno]|(l1 & i & tr & l2 & -> & Hr & Hin & Hd & H1 & H2)].
  3-5: destruct (IH cid mind)
       as [[Hr Hno]|(l1 & i & tr & l2 & -> & Hr & Hin & Hd & H1 & H2)].
  - right. exists [], j, tj, rest. split_and!; try done.
    + intros ? ? H. inversion H.
    + intros j' tr' Hin' Hw'. specialize (Hno j' tr' Hin' Hw').
      by apply Z.ltb_ge in Hno.
  - right. exists ((j, tj) :: l1), i, tr, l2.
    apply Z.ltb_lt in Hd. split_and!; try done.
    + eapply distance_ltb_trans; [exact Hd | exact Hlt].
    + intros j' tr' [[= -> ->]|Hin']%elem_of_cons Hw'; [done | eauto].
  - left. split; [done|].
    intros j' tr' [[= -> ->]|Hin']%elem_of_cons Hw'; [|eauto].
    unfold within in Hw'. congruence.
  - right. exists ((j, tj) :: l1), i, tr, l2. split_and!; try done.
    intros j' tr' [[= -> ->]|Hin']%elem_of_cons Hw'; [|eauto].
    unfold within in Hw'. congruence.
  - left. split; [done|].
    intros j' tr' [[= -> ->]|Hin']%elem_of_cons Hw'; [done | eauto].
  - right. exists ((j, tj) :: l1), i, tr, l2. split_and!; try done.
    intros j' tr' [[= -> ->]|Hin']%elem_of_cons Hw'; [|eauto].
    eapply distance_ltb_ge; [exact Hlt | exact Hd].
  - left. split; [done|].
    intros j' tr' [[= -> ->]|Hin']%elem_of_cons Hw'; [done | eauto].
  - right. exists ((j, tj) :: l1), i, tr, l2. split_and!; try done.
    intros j' tr' [[= -> ->]|Hin']%elem_of_cons Hw'; [|eauto].
    eapply distance_ltb_ge; [exact Hlt | exact Hd].
Qed.

(** Once an item at distance zero has been taken, nothing replaces it. *)
Lemma closest_scan_floor items i :
  Tracker.closest_scan c scaled items (Some i) (Sqrt 0) = Some i.
Proof.
  induction items as [|[j tj] rest IH]; simpl; [done|].
  pose proof (radicand_nonneg c (centroid tj)) as Hn. unfold radicand in Hn.
  destruct (_ <? 0) eqn:E; [apply Z.ltb_lt in E; lia | done].
Qed.

Lemma within_same tr : (0 < scaled)%Q → centroid tr = c → within c scaled tr.
Proof.
  intros Hs <-. unfold within, Tracker._calculate_distance.
  rewrite !Z.sub_diag. simpl. rewrite andb_true_iff, !Qltb_lt.
  split; [done|]. change (inject_Z (0 ^ 2 + 0 ^ 2)) with 0%Q.
  by apply Qmult_lt_0_compat.
Qed.

(** The first item sitting exactly on [c] wins the scan. *)
Lemma closest_scan_zero l1 i tr l2 cid mind :
  (0 < scaled)%Q → centroid tr = c →
  (∀ j tr', (j, tr') ∈ l1 → rad tr' ≠ 0) →
  (mind = Inf ∨ ∃ n, mind = Sqrt n ∧ 0 < n) →
  Tracker.closest_scan c scaled (l1 ++ (i, tr) :: l2) cid mind = Some i.
Proof.
  intros Hs Hc. revert cid mind. induction l1 as [|[j tj] l1 IH]; intros cid mind Hpos Hm.
  - pose proof (within_same tr Hs Hc) as Hw. unfold within in Hw.
    cbn [app Tracker.closest_scan]. rewrite Hw, andb_true_r.
    assert (dist tr = Sqrt 0) as Hz.
    { rewrite Hc. unfold Tracker._calculate_distance. by rewrite !Z.sub_diag. }
    rewrite Hz in *.
    assert (distance_ltb (Sqrt 0) mind = true) as ->.
    { destruct Hm as [->|(n & -> & Hn)]; simpl; [done | by apply Z.ltb_lt]. }
    apply closest_scan_floor.
  - cbn [app Tracker.closest_scan].
    assert (0 < rad tj) as Hj.
    { pose proof (radicand_nonneg c (centroid tj)).
      pose proof (Hpos j tj ltac:(left)). lia. }
    destruct (_ && _).
    + apply IH; [intros; eapply Hpos; by right|].
      right. eexists. split; [reflexivity | exact Hj].
    + apply IH; [intros; eapply Hpos; by right | done].
Qed.

End scan.

Lemma find_closest_match_spec t c fw fh :
  let scaled := Tracker.scaled_max_dist t fw in
  match Tracker._find_closest_match t c fw fh with
  | Some i =>
      ∃ l1 tr l2,
        tracked_objects t = l1 ++ (i, tr) :: l2 ∧ within c scaled tr ∧
        (∀ j tr', (j, tr') ∈ l1 → within c scaled tr' →
                  radicand c (centroid tr) < radicand c (centroid tr')) ∧
        (∀ j tr', (j, tr') ∈ l2 → within c scaled tr' →
                  radicand c (centroid tr) ≤ radicand c (centroid tr'))
  | None => ∀ j tr, (j, tr) ∈ tracked_objects t → ¬ within c scaled tr
  end.
Proof.
  intros scaled. unfold Tracker._find_closest_match. fold scaled.
  destruct (closest_scan_spec c scaled (tracked_objects t) None Inf)
    as [[-> Hno]|(l1 & i & tr & l2 & Heq & -> & Hw & _ & H1 & H2)].
  - intros j tr Hin Hw. by specialize (Hno j tr Hin Hw).
  - exists l1, tr, l2. done.
Qed.

Lemma find_closest_match_key t c fw fh i :
  Tracker._find_closest_match t c fw fh = Some i →
  is_Some (Py.get i (tracked_objects t)).
Proof.
  intros H. pose proof (find_closest_match_spec t c fw fh) as Hs.
  rewrite H in Hs. destruct Hs as (l1 & tr & l2 & Heq & _).
  apply get_is_Some. rewrite Heq. unfold Py.keys. rewrite map_app.
  apply elem_of_app. right. left.
Qed.

(* ===================================================================== *)
(** ** The detection loop                                                 *)
(* ===================================================================== *)

Section loop.
Variables (now : Z) (min_sim : Q) (cooldown : Z) (fw fh : Z).

Abbreviation step := (Tracker.update_detection now min_sim cooldown fw fh).
Abbreviation loop := (Tracker.update_loop now min_sim cooldown fw fh).
Abbreviation objs s := (tracked_objects (Tracker.self s)).
Abbreviation text d :=
  (format_spoken_text (d_color d) (d_shape d) (d_size d) (d_similarity d)).

(** What one iteration does, whichever branch it takes. *)
Lemma update_detection_facts s d :
  ∃ s' i sp,
    step s d = Some s' ∧
    i = default (next_id (Tracker.self s))
          (Tracker._find_closest_match (Tracker.self s) (d_centroid d) fw fh) ∧
    Tracker.updated_detections s'
      = Tracker.updated_detections s ++ [annotate d i sp (text d)] ∧
    Tracker.matched_ids s' = Tracker.matched_ids s ∪ {[i]} ∧
    i ∈ Py.keys (objs s') ∧
    (∀ k, k ≠ i → Py.get k (objs s') = Py.get k (objs s)) ∧
    (∀ k, k ∈ Py.keys (objs s) → k ∈ Py.keys (objs s')) ∧
    (Py.wf (objs s) → Py.wf (objs s')) ∧
    max_distance (Tracker.self s') = max_distance (Tracker.self s).
Proof.
  unfold Tracker.update_detection. cbv zeta.
  destruct (Tracker._find_closest_match _ _ _ _) as [i|] eqn:Hf.
  - destruct (find_closest_match_key _ _ _ _ _ Hf) as [old Hg].
    rewrite Hg. cbn [mbind option_bind].
    set (sp := if Qle_bool _ _ then _ else false).
    eexists _, i, sp. split; [reflexivity|].
    cbn [Tracker.self Tracker.updated_detections Tracker.matched_ids
         tracked_objects max_distance Tracker.with_objects].
    assert (Hi : i ∈ Py.keys (objs s)) by (apply get_is_Some; eauto).
    split_and!; try done.
    + destruct sp; by rewrite !keys_modify.
    + intros k Hk. destruct sp; rewrite !get_modify; by rewrite !decide_False.
    + intros k Hk. destruct sp; by rewrite !keys_modify.
    + intros Hwf. destruct sp; by repeat apply wf_modify.
  - eexists _, (next_id (Tracker.self s)), _. split; [reflexivity|].
    cbn [Tracker.self Tracker.updated_detections Tracker.matched_ids
         tracked_objects max_distance].
    split_and!; try done.
    + apply get_is_Some. rewrite get_set. rewrite decide_True by done. eauto.
    + intros k Hk. rewrite get_set. by rewrite decide_False.
    + intros k Hk. rewrite keys_set. case_decide; [done|]. apply elem_of_app. by left.
    + apply wf_set.
Qed.

Lemma update_loop_facts dets : ∀ s,
  ∃ s' outs,
    loop s dets = Some s' ∧
    Tracker.updated_detections s' = Tracker.updated_detections s ++ outs ∧
    Forall2 annotated dets outs ∧
    (∀ i, i ∈ Tracker.matched_ids s' ↔
          i ∈ Tracker.matched_ids s ∨ ∃ o, o ∈ outs ∧ d_id o = Some i) ∧
    ((∀ i, i ∈ Tracker.matched_ids s → i ∈ Py.keys (objs s)) →
     ∀ i, i ∈ Tracker.matched_ids s' → i ∈ Py.keys (objs s')) ∧
    (∀ k, k ∉ Tracker.matched_ids s' → Py.get k (objs s') = Py.get k (objs s)) ∧
    (Py.wf (objs s) → Py.wf (objs s')) ∧
    max_distance (Tracker.self s') = max_distance (Tracker.self s).
Proof.
  induction dets as [|d rest IH]; intros s.
  - exists s, []. cbn. rewrite app_nil_r. split_and!; try done.
    intros i. split; [by left | intros [?|(o & Ho & _)]; [done | inversion Ho]].
  - destruct (update_detection_facts s d)
      as (s1 & i & sp & Hstep & _ & Hout & Hm & Hi & Hget & Hkeys & Hwf & Hmax).
    destruct (IH s1) as (s' & outs & Hloop & Hout' & HF & Hm' & Hk' & Hget' & Hwf' & Hmax').
    exists s', (annotate d i sp (text d) :: outs).
    cbn [Tracker.update_loop]. rewrite Hstep. cbn [mbind option_bind].
    split_and!; try done.
    + rewrite Hout', Hout, <- app_assoc. done.
    + constructor; [by exists i, sp | done].
    + intros k. rewrite Hm', Hm. split.
      * intros [Hk|(o & Ho & Hid)].
        -- apply elem_of_union in Hk as [Hk|Hk]; [by left|].
           apply elem_of_singleton in Hk as ->.
           right. eexists. split; [left | done].
        -- right. exists o. split; [by right | done].
      * intros [?|(o & [->|Ho]%elem_of_cons & Hid)].
        -- left. apply elem_of_union. by left.
        -- left. cbn in Hid. injection Hid as ->.
           apply elem_of_union. right. by apply elem_of_singleton.
        -- right. eauto.
    + intros Hs. apply Hk'. intros k. rewrite Hm.
      intros [Hk|Hk]%elem_of_union; [apply Hkeys; auto|].
      by apply elem_of_singleton in Hk as ->.
    + intros k Hk. rewrite Hget' by done. apply Hget.
      intros ->. apply Hk. apply Hm'. left. rewrite Hm.
      apply elem_of_union. right. by apply elem_of_singleton.
    + auto.
    + congruence.
Qed.

End loop.

(** [update] runs the loop and then keeps exactly the items that the
    expiry scan does not select. *)
Lemma update_of_loop t dets fw fh cfg now s :
  Tracker.update_loop now (default (70 : Q) (min_similarity cfg))
    (default 2000 (speak_cooldown_ms cfg)) fw fh
    (Tracker.loop_start t) dets = Some s →
  Py.wf (tracked_objects (Tracker.self s)) →
  Tracker.update t dets fw fh cfg now
  = Some (Tracker.with_objects (Tracker.self s)
            (List.filter (λ it, negb (Tracker.expired now (Tracker.matched_ids s) it))
               (tracked_objects (Tracker.self s))),
          Tracker.updated_detections s).
Proof.
  intros Hloop Hwf. unfold Tracker.update. rewrite Hloop. cbn [mbind option_bind].
  unfold Tracker.ids_to_remove. by rewrite remove_all_filter.
Qed.

(* ===================================================================== *)
(** ** Properties of [ObjectTracker.update]                               *)
(* ===================================================================== *)

(** [update] returns, and returns the annotated input list. *)
Lemma update_returns_annotated t dets fw fh cfg now :
  Py.wf (tracked_objects t) →
  ∃ t' out,
    Tracker.update t dets fw fh cfg now = Some (t', out) ∧ Forall2 annotated dets out.
Proof.
  intros Hwf.
  destruct (update_loop_facts now (default (70 : Q) (min_similarity cfg))
              (default 2000 (speak_cooldown_ms cfg)) fw fh dets (Tracker.loop_start t))
    as (s & outs & Hloop & Hout & HF & _ & _ & _ & Hwf' & _).
  eexists _, _. split; [apply (update_of_loop _ _ _ _ _ _ s Hloop (Hwf' Hwf))|].
  by rewrite Hout.
Qed.

(** C10: every call to [update] returns one element per input detection,
    in the order of the input list, and each element is the input
    detection with [id], [should_speak] and [spoken_text] stored, its
    [bbox], [centroid], [label] and [similarity] (and every other key)
    being unchanged. *)
Theorem C10_update_annotates_each_detection_in_order t dets fw fh cfg now :
  Py.wf (tracked_objects t) →
  ∃ t' out,
    Tracker.update t dets fw fh cfg now = Some (t', out) ∧
    Forall2 (λ d o,
      annotated d o ∧
      is_Some (d_id o) ∧ is_Some (d_should_speak o) ∧ is_Some (d_spoken_text o) ∧
      d_bbox o = d_bbox d ∧ d_centroid o = d_centroid d ∧
      d_label o = d_label d ∧ d_similarity o = d_similarity d) dets out.
Proof.
  intros Hwf.
  destruct (update_returns_annotated t dets fw fh cfg now Hwf) as (t' & out & Hup & HF).
  exists t', out. split; [done|].
  eapply Forall2_impl; [exact HF|].
  intros d o (i & sp & ->). split; [by exists i, sp|]. cbn. eauto 10.
Qed.

Lemma C10_update_annotates_witness :
  ∃ t' out,
    Tracker.update Ex.one_cup [Ex.cup (105, 103) 85; Ex.cup (400, 300) 60]
      640 480 Ex.cfg70 5200 = Some (t', out) ∧
    Forall2 (λ d o,
      annotated d o ∧
      is_Some (d_id o) ∧ is_Some (d_should_speak o) ∧ is_Some (d_spoken_text o) ∧
      d_bbox o = d_bbox d ∧ d_centroid o = d_centroid d ∧
      d_label o = d_label d ∧ d_similarity o = d_similarity d)
      [Ex.cup (105, 103) 85; Ex.cup (400, 300) 60] out.
Proof.
  apply (C10_update_annotates_each_detection_in_order Ex.one_cup).
  unfold Py.wf. cbn. apply NoDup_singleton.
Defined.

(** C6: on every call to [update], also with an empty detection list, a
    track matched in the frame (one whose id is returned for some
    detection) is still in the tracker afterwards, and a track not matched
    in the frame is removed exactly when [current_time - last_seen_ms] is
    strictly greater than 1000 ms, being kept unchanged otherwise. *)
Theorem C6_expiry_removes_exactly_stale_unmatched_tracks t dets fw fh cfg now :
  Py.wf (tracked_objects t) →
  ∃ t' out,
    Tracker.update t dets fw fh cfg now = Some (t', out) ∧
    (∀ i o, o ∈ out → d_id o = Some i → is_Some (Py.get i (tracked_objects t'))) ∧
    (∀ i, (∀ o, o ∈ out → d_id o ≠ Some i) →
       Py.get i (tracked_objects t')
       = match Py.get i (tracked_objects t) with
         | Some tr => if 1000 <? now - last_seen_ms tr then None else Some tr
         | None => None
         end).
Proof.
  intros Hwf.
  destruct (update_loop_facts now (default (70 : Q) (min_similarity cfg))
              (default 2000 (speak_cooldown_ms cfg)) fw fh dets (Tracker.loop_start t))
    as (s & outs & Hloop & Hout & _ & Hm & Hk & Hget & Hwf' & _).
  specialize (Hwf' Hwf).
  eexists _, _. split; [apply (update_of_loop _ _ _ _ _ _ s Hloop Hwf')|].
  rewrite Hout. cbn [Tracker.loop_start Tracker.updated_detections app Tracker.with_objects
                     tracked_objects Tracker.self Tracker.matched_ids] in *.
  split.
  - intros i o Ho Hid.
    assert (Hin : i ∈ Tracker.matched_ids s) by (apply Hm; right; eauto).
    assert (Hkey : i ∈ Py.keys (tracked_objects (Tracker.self s))).
    { apply Hk; [|done]. intros k Hk0. by apply not_elem_of_empty in Hk0. }
    apply get_is_Some in Hkey as [tr Htr].
    rewrite get_filter, Htr by done. cbn [mbind option_bind].
    unfold Tracker.expired. cbn [fst snd].
    rewrite bool_decide_eq_false_2 by (intros Hn; by apply Hn). cbn. eauto.
  - intros i Hno.
    assert (Hnin : i ∉ Tracker.matched_ids s).
    { intros [Hin|(o & Ho & Hid)]%Hm; [by apply not_elem_of_empty in Hin|].
      by apply (Hno o). }
    rewrite get_filter, (Hget i Hnin) by done.
    destruct (Py.get i (tracked_objects t)) as [tr|]; [|done].
    cbn [mbind option_bind]. unfold Tracker.expired, Tracker.timeout_ms. cbn [fst snd].
    rewrite bool_decide_eq_true_2 by done. cbn [andb].
    by destruct (1000 <? now - last_seen_ms tr).
Qed.

Lemma C6_expiry_witness :
  ∃ t' out,
    Tracker.update Ex.one_cup [] 640 480 Ex.cfg70 6200 = Some (t', out) ∧
    (∀ i o, o ∈ out → d_id o = Some i → is_Some (Py.get i (tracked_objects t'))) ∧
    (∀ i, (∀ o, o ∈ out → d_id o ≠ Some i) →
       Py.get i (tracked_objects t')
       = match Py.get i (tracked_objects Ex.one_cup) with
         | Some tr => if 1000 <? 6200 - last_seen_ms tr then None else Some tr
         | None => None
         end).
Proof.
  apply (C6_expiry_removes_exactly_stale_unmatched_tracks Ex.one_cup).
  unfold Py.wf. cbn. apply NoDup_singleton.
Defined.

(* ===================================================================== *)
(** ** The spoken text                                                    *)
(* ===================================================================== *)





Lemma Forall2_Forall_transfer {A B} (R : A → B → Prop) (P : A → Prop) (Q : B → Prop) l k :
  Forall2 R l k → Forall P l → (∀ x y, P x → R x y → Q y) → Forall Q k.
Proof.
  intros HF HP HQ. induction HF as [|x y l k Hxy HF IH]; [constructor|].
  apply Forall_cons in HP as [Hx HP]. constructor; eauto.
Qed.



(* ===================================================================== *)
(** ** Matching and the speak decision                                    *)
(* ===================================================================== *)




(** C5: for a detection folded into a matched track, [should_speak] is
    false when the similarity is below [min_similarity]; otherwise it is
    true iff the label differs from the track's [last_label] or
    [now - last_spoken_ms >= speak_cooldown_ms]; and the track's
    [last_spoken_ms] becomes [now] exactly when [should_speak] is true,
    keeping its value otherwise. *)
Theorem C5_speak_rule_for_matched_track now min_sim cooldown fw fh s d i :
  Tracker._find_closest_match (Tracker.self s) (d_centroid d) fw fh = Some i →
  ∃ old s' sp new,
    Py.get i (tracked_objects (Tracker.self s)) = Some old ∧
    Tracker.update_detection now min_sim cooldown fw fh s d = Some s' ∧
    Tracker.updated_detections s'
      = Tracker.updated_detections s
        ++ [annotate d i sp
              (format_spoken_text (d_color d) (d_shape d) (d_size d) (d_similarity d))] ∧
    ((d_similarity d < min_sim)%Q → sp = false) ∧
    (¬ (d_similarity d < min_sim)%Q →
       (sp = true ↔ d_label d ≠ last_label old ∨ cooldown ≤ now - last_spoken_ms old)) ∧
    Py.get i (tracked_objects (Tracker.self s')) = Some new ∧
    last_spoken_ms new = (if sp then now else last_spoken_ms old).
Proof.
  intros Hf. destruct (find_closest_match_key _ _ _ _ _ Hf) as [old Hg].
  unfold Tracker.update_detection. cbv zeta. rewrite Hf, Hg. cbn [mbind option_bind].
  set (sp := if Qle_bool _ _ then _ else false).
  exists old. eexists _, sp,
    (if sp then Tracker.spoke now (Tracker.refresh (d_centroid d) now (d_label d) old)
     else Tracker.refresh (d_centroid d) now (d_label d) old).
  split; [done|]. split; [reflexivity|].
  cbn [Tracker.self Tracker.updated_detections tracked_objects Tracker.with_objects].
  split; [done|]. split_and!.
  - intros Hlt. subst sp. destruct (Qle_bool min_sim (d_similarity d)) eqn:E; [|done].
    apply Qle_bool_iff in E. exfalso. by apply (Qlt_not_le _ _ Hlt).
  - intros Hge. apply Qnot_lt_le, Qle_bool_iff in Hge. subst sp. rewrite Hge.
    rewrite orb_true_iff, negb_true_iff, String.eqb_neq, Z.leb_le. done.
  - destruct sp; rewrite !get_modify, !decide_True, Hg by done; reflexivity.
  - by destruct sp.
Qed.

Lemma C5_speak_rule_witness :
  ∃ old s' sp new,
    Py.get 1 (tracked_objects (Tracker.self (Tracker.loop_start Ex.one_cup))) = Some old ∧
    Tracker.update_detection 5200 70 2000 640 480 (Tracker.loop_start Ex.one_cup)
      (Ex.cup (105, 103) 85) = Some s' ∧
    Tracker.updated_detections s'
      = Tracker.updated_detections (Tracker.loop_start Ex.one_cup)
        ++ [annotate (Ex.cup (105, 103) 85) 1 sp
              (format_spoken_text "unknown" "cup" "medium" 85)] ∧
    ((85 < 70)%Q → sp = false) ∧
    (¬ (85 < 70)%Q →
       (sp = true ↔ "Cup"%string ≠ last_label old ∨ 2000 ≤ 5200 - last_spoken_ms old)) ∧
    Py.get 1 (tracked_objects (Tracker.self s')) = Some new ∧
    last_spoken_ms new = (if sp then 5200 else last_spoken_ms old).
Proof.
  apply (C5_speak_rule_for_matched_track 5200 70 2000 640 480 (Tracker.loop_start Ex.one_cup)
           (Ex.cup (105, 103) 85) 1).
  vm_compute. reflexivity.
Defined.

(* ===================================================================== *)
(** ** The confidence filter of the detector                              *)
(* ===================================================================== *)

(** C4: whenever the request's [min_similarity] is absent or at most 30
    (zero and negative values included), the threshold used by the
    confidence filter is exactly 0.30. *)
Theorem C4_confidence_floor cfg :
  (∀ m, min_similarity cfg = Some m → (m <= 30)%Q) →
  ObjectDetector.min_conf cfg = (3 # 10)%Q.
Proof.
  intros H. unfold ObjectDetector.min_conf, Py.max.
  assert (Py.Qltb (3 # 10) (default (30 : Q) (min_similarity cfg) / 100) = false) as ->; [|done].
  apply Qltb_ge. apply Qle_shift_div_r; [reflexivity|].
  apply Qle_trans with 30%Q; [|vm_compute; discriminate].
  destruct (min_similarity cfg) as [m|]; cbn [default].
  - by apply H.
  - apply Qle_refl.
Qed.

Lemma C4_confidence_floor_witness :
  ObjectDetector.min_conf {| min_similarity := Some (- 5)%Q; speak_cooldown_ms := None |}
  = (3 # 10)%Q.
Proof.
  apply C4_confidence_floor. cbn. intros m [= <-]. vm_compute. discriminate.
Defined.



(* ===================================================================== *)
(** ** Matching is many-to-one                                            *)
(* ===================================================================== *)

Lemma within_zero c scaled tr :
  (0 < scaled)%Q → radicand c (centroid tr) = 0 → within c scaled tr.
Proof.
  intros Hs Hz. unfold within, Tracker._calculate_distance.
  unfold radicand in Hz. rewrite Hz. cbn [distance_lt_float].
  rewrite andb_true_iff, !Qltb_lt. split; [done|].
  change (inject_Z 0) with 0%Q. by apply Qmult_lt_0_compat.
Qed.

(** After a detection has been processed, the nearest track to its
    centroid is the track it was given. *)
Lemma find_after_step now min_sim cooldown fw fh s d s1 :
  Py.wf (tracked_objects (Tracker.self s)) →
  (0 < Tracker.scaled_max_dist (Tracker.self s) fw)%Q →
  Tracker.update_detection now min_sim cooldown fw fh s d = Some s1 →
  Tracker._find_closest_match (Tracker.self s1) (d_centroid d) fw fh
  = Some (default (next_id (Tracker.self s))
            (Tracker._find_closest_match (Tracker.self s) (d_centroid d) fw fh)).
Proof.
  intros Hwf Hs. set (c := d_centroid d).
  pose proof (find_closest_match_spec (Tracker.self s) c fw fh) as Hspec.
  cbv zeta in Hspec. unfold Tracker.update_detection. cbv zeta. fold c.
  destruct (Tracker._find_closest_match (Tracker.self s) c fw fh) as [i|] eqn:Hf.
  - destruct Hspec as (l1 & tr & l2 & Heq & Hw & H1 & _).
    assert (Hi : i ∉ Py.keys l1).
    { unfold Py.wf in Hwf. rewrite Heq in Hwf. unfold Py.keys in *.
      rewrite map_app in Hwf. apply NoDup_app in Hwf as (_ & Hdis & _).
      intros Hin. apply (Hdis i Hin). left. }
    destruct (Py.get i (tracked_objects (Tracker.self s))) as [old|]; [|done].
    cbn [mbind option_bind default]. intros [= <-].
    unfold Tracker._find_closest_match.
    cbn [Tracker.self tracked_objects Tracker.with_objects].
    change (Tracker.scaled_max_dist _ fw) with (Tracker.scaled_max_dist (Tracker.self s) fw).
    assert (Hl1 : ∀ j tr', (j, tr') ∈ l1 → radicand c (centroid tr') ≠ 0).
    { intros j tr' Hin Hz.
      pose proof (H1 j tr' Hin (within_zero _ _ _ Hs Hz)).
      pose proof (radicand_nonneg c (centroid tr)). lia. }
    rewrite Heq. destruct (if Qle_bool _ _ then _ else false).
    + rewrite modify_app by done. rewrite modify_app by done.
      apply closest_scan_zero; auto.
    + rewrite modify_app by done.
      apply closest_scan_zero; auto.
  - cbn [default]. intros [= <-].
    unfold Tracker._find_closest_match. cbn [Tracker.self tracked_objects].
    change (Tracker.scaled_max_dist _ fw) with (Tracker.scaled_max_dist (Tracker.self s) fw).
    match goal with |- context [Py.set ?k ?v ?o] =>
      destruct (set_split k v o) as (l1 & l2 & -> & Hsub) end.
    apply closest_scan_zero; auto.
    intros j tr' Hin Hz. apply (Hspec j tr'); [by apply Hsub|].
    by apply within_zero.
Qed.

(** C1 (as the code has it): the nearest-track search looks at every
    track in tracker state, whether or not it was already matched or
    created in the current frame -- the result of an iteration does not
    depend on [matched_ids] -- so matching is many-to-one: a detection
    whose centroid equals that of the detection processed just before it
    in the same frame is given the same track id, although that id is
    already in [matched_ids]. *)
Theorem C1_nearest_search_ignores_matched_ids now min_sim cooldown fw fh s d d' :
  Py.wf (tracked_objects (Tracker.self s)) →
  0 < max_distance (Tracker.self s) → 0 < fw →
  d_centroid d' = d_centroid d →
  ∃ s1 s2 i sp sp',
    Tracker.update_detection now min_sim cooldown fw fh s d = Some s1 ∧
    Tracker.update_detection now min_sim cooldown fw fh s1 d' = Some s2 ∧
    i ∈ Tracker.matched_ids s1 ∧
    Tracker.updated_detections s2
      = Tracker.updated_detections s
        ++ [annotate d i sp
              (format_spoken_text (d_color d) (d_shape d) (d_size d) (d_similarity d));
            annotate d' i sp'
              (format_spoken_text (d_color d') (d_shape d') (d_size d') (d_similarity d'))] ∧
    ∀ m, ∃ s1',
      Tracker.update_detection now min_sim cooldown fw fh (with_matched s m) d = Some s1' ∧
      Tracker.self s1' = Tracker.self s1 ∧
      Tracker.updated_detections s1' = Tracker.updated_detections s1.
Proof.
  intros Hwf Hmax Hfw Hc.
  destruct (update_detection_facts now min_sim cooldown fw fh s d)
    as (s1 & i & sp & Hstep & Hi & Hout & Hm & _ & _ & _ & _ & Hmax1).
  destruct (update_detection_facts now min_sim cooldown fw fh s1 d')
    as (s2 & i' & sp' & Hstep' & Hi' & Hout' & _).
  pose proof (find_after_step _ _ _ _ _ _ _ _ Hwf (scaled_max_dist_pos _ _ Hmax Hfw) Hstep)
    as Hfind.
  rewrite Hc, Hfind in Hi'. cbn [default] in Hi'. rewrite <- Hi in Hi'. subst i'.
  exists s1, s2, i, sp, sp'. split_and!; try done.
  - rewrite Hm. apply elem_of_union. right. by apply elem_of_singleton.
  - rewrite Hout', Hout, <- app_assoc. done.
  - intros m. revert Hstep. unfold Tracker.update_detection. cbv zeta.
    cbn [with_matched Tracker.self Tracker.updated_detections].
    destruct (Tracker._find_closest_match _ _ _ _).
    + destruct (Py.get _ _); [|done]. cbn [mbind option_bind]. intros [= <-].
      eexists. split; [reflexivity|]. done.
    + intros [= <-]. eexists. split; [reflexivity|]. done.
Qed.

Lemma C1_nearest_search_witness :
  ∃ s1 s2 i sp sp',
    Tracker.update_detection 5200 70 2000 640 480 (Tracker.loop_start Ex.one_cup)
      (Ex.cup (105, 103) 85) = Some s1 ∧
    Tracker.update_detection 5200 70 2000 640 480 s1 (Ex.cup (105, 103) 60) = Some s2 ∧
    i ∈ Tracker.matched_ids s1 ∧
    Tracker.updated_detections s2
      = Tracker.updated_detections (Tracker.loop_start Ex.one_cup)
        ++ [annotate (Ex.cup (105, 103) 85) i sp
              (format_spoken_text "unknown" "cup" "medium" 85);
            annotate (Ex.cup (105, 103) 60) i sp'
              (format_spoken_text "unknown" "cup" "medium" 60)] ∧
    ∀ m, ∃ s1',
      Tracker.update_detection 5200 70 2000 640 480
        (with_matched (Tracker.loop_start Ex.one_cup) m) (Ex.cup (105, 103) 85) = Some s1' ∧
      Tracker.self s1' = Tracker.self s1 ∧
      Tracker.updated_detections s1' = Tracker.updated_detections s1.
Proof.
  apply (C1_nearest_search_ignores_matched_ids 5200 70 2000 640 480 (Tracker.loop_start Ex.one_cup)
           (Ex.cup (105, 103) 85) (Ex.cup (105, 103) 60)).
  - unfold Py.wf. cbn. apply NoDup_singleton.
  - cbn. lia.
  - lia.
  - reflexivity.
Defined.

(** C1, as stated, fails: a tracker following one cup is given a frame
    with two detections near it; both are matched to track 1 (no track is
    created), so the track is claimed twice in the frame. *)
Lemma C1_two_detections_claim_one_track :
  ∃ t' o1 o2,
    Tracker.update Ex.one_cup [Ex.cup (105, 103) 85; Ex.cup (98, 101) 80]
      640 480 Ex.cfg70 5200 = Some (t', [o1; o2]) ∧
    Py.keys (tracked_objects Ex.one_cup) = [1] ∧
    d_id o1 = Some 1 ∧ d_id o2 = Some 1 ∧
    next_id t' = next_id Ex.one_cup ∧
    Py.keys (tracked_objects t') = [1].
Proof.
  eexists _, _, _. split; [vm_compute; reflexivity|]. done.
Qed.

(* ===================================================================== *)
(** ** Allocation of track ids                                            *)
(* ===================================================================== *)

Lemma zseq_app k n m : zseq k (n + m) = zseq k n ++ zseq (k + Z.of_nat n) m.
Proof.
  revert k. induction n as [|n IH]; intros k.
  - cbn. by rewrite Z.add_0_r.
  - cbn [Nat.add zseq app]. rewrite IH. do 3 f_equal. lia.
Qed.

Lemma length_zseq k n : length (zseq k n) = n.
Proof. revert k. induction n as [|n IH]; intros k; cbn; [done | by rewrite IH]. Qed.

Lemma lookup_zseq k n (i : nat) a : zseq k n !! i = Some a → a = k + Z.of_nat i.
Proof.
  revert k i. induction n as [|n IH]; intros k i; [done|].
  destruct i as [|i]; cbn.
  - intros [= <-]. lia.
  - intros H. apply IH in H. lia.
Qed.

Lemma wf_filter {V} (P : Z * V → bool) (d : Py.dict V) : Py.wf d → Py.wf (List.filter P d).
Proof.
  unfold Py.wf, Py.keys. induction d as [|[k v] r IH]; [done|].
  cbn [map fst]. intros [Hk Hnd]%NoDup_cons. cbn [List.filter].
  destruct (P (k, v)); [|auto]. cbn [map fst]. apply NoDup_cons. split; [|auto].
  intros Hin. apply Hk. apply list_elem_of_fmap in Hin as ([k' v'] & -> & Hin).
  apply list_elem_of_In, filter_In in Hin as [Hin _].
  apply list_elem_of_fmap. exists (k', v'). split; [done | by apply list_elem_of_In].
Qed.

Lemma keys_filter {V} (P : Z * V → bool) (d : Py.dict V) k :
  k ∈ Py.keys (List.filter P d) → k ∈ Py.keys d.
Proof.
  unfold Py.keys. intros ([k' v'] & -> & Hin)%list_elem_of_fmap.
  apply list_elem_of_In, filter_In in Hin as [Hin _].
  apply list_elem_of_fmap. exists (k', v'). split; [done | by apply list_elem_of_In].
Qed.

Section allocation.
Variables (now : Z) (min_sim : Q) (cooldown : Z) (fw fh : Z).

(** An iteration takes an id from [next_id] exactly when it creates a
    track; the counter then moves to the next integer. *)
Lemma update_detection_alloc s d s' :
  Tracker.update_detection now min_sim cooldown fw fh s d = Some s' →
  match Tracker._find_closest_match (Tracker.self s) (d_centroid d) fw fh with
  | Some _ =>
      next_id (Tracker.self s') = next_id (Tracker.self s) ∧
      Py.keys (tracked_objects (Tracker.self s'))
      = Py.keys (tracked_objects (Tracker.self s))
  | None =>
      next_id (Tracker.self s') = next_id (Tracker.self s) + 1 ∧
      ∀ k, k ∈ Py.keys (tracked_objects (Tracker.self s')) →
           k ∈ Py.keys (tracked_objects (Tracker.self s)) ∨ k = next_id (Tracker.self s)
  end.
Proof.
  unfold Tracker.update_detection. cbv zeta.
  destruct (Tracker._find_closest_match _ _ _ _) as [i|].
  - destruct (Py.get _ _); [|done]. cbn [mbind option_bind]. intros [= <-].
    cbn [Tracker.self tracked_objects next_id Tracker.with_objects].
    split; [done|]. destruct (if Qle_bool _ _ then _ else false); by rewrite !keys_modify.
  - intros [= <-]. cbn [Tracker.self tracked_objects next_id].
    split; [done|]. intros k. rewrite keys_set. case_decide; [by left|].
    intros [?|Hk]%elem_of_app; [by left|]. right. by apply list_elem_of_singleton in Hk.
Qed.

Lemma allocated_loop_spec dets : ∀ s,
  ∃ s' n,
    Tracker.update_loop now min_sim cooldown fw fh s dets = Some s' ∧
    Session.allocated_loop now min_sim cooldown fw fh s dets
      = zseq (next_id (Tracker.self s)) n ∧
    next_id (Tracker.self s') = next_id (Tracker.self s) + Z.of_nat n ∧
    ∀ k, k ∈ Py.keys (tracked_objects (Tracker.self s')) →
         k ∈ Py.keys (tracked_objects (Tracker.self s)) ∨
         k ∈ Session.allocated_loop now min_sim cooldown fw fh s dets.
Proof.
  induction dets as [|d rest IH]; intros s.
  - exists s, 0%nat. cbn. split_and!; [done | done | lia | by left].
  - destruct (update_detection_facts now min_sim cooldown fw fh s d)
      as (s1 & _ & _ & Hstep & _).
    pose proof (update_detection_alloc s d s1 Hstep) as Halloc.
    destruct (IH s1) as (s' & n & Hloop & Hall & Hnext & Hkeys).
    cbn [Tracker.update_loop Session.allocated_loop]. rewrite Hstep.
    cbn [mbind option_bind].
    destruct (Tracker._find_closest_match _ _ _ _) as [i|].
    + destruct Halloc as [Hn Hk]. exists s', n. rewrite <- Hn, <- Hk. done.
    + destruct Halloc as [Hn Hk]. exists s', (S n). split_and!.
      * done.
      * cbn [zseq]. by rewrite Hall, Hn.
      * lia.
      * intros k [Hin|Hin]%Hkeys.
        -- apply Hk in Hin as [?|Heq]; [by left|]. subst k. right. left.
        -- right. by right.
Qed.

End allocation.

(** Over a whole session the ids allocated are consecutive integers from
    the counter's initial value: none is skipped and none comes back. *)
Lemma session_run_spec frames : ∀ t,
  Py.wf (tracked_objects t) →
  ∃ t' ids,
    Session.run t frames = Some (t', ids) ∧
    ids = zseq (next_id t) (length ids) ∧
    next_id t' = next_id t + Z.of_nat (length ids) ∧
    ∀ k, k ∈ Py.keys (tracked_objects t') → k ∈ Py.keys (tracked_objects t) ∨ k ∈ ids.
Proof.
  induction frames as [|f rest IH]; intros t Hwf.
  - exists t, []. cbn. split_and!; [done | done | lia | by left].
  - destruct (allocated_loop_spec (Session.now f)
                (default (70 : Q) (min_similarity (Session.cfg f)))
                (default 2000 (speak_cooldown_ms (Session.cfg f)))
                (Session.frame_w f) (Session.frame_h f) (Session.detections f)
                (Tracker.loop_start t)) as (s & n & Hloop & Hall & Hnext & Hkeys).
    destruct (update_loop_facts (Session.now f)
                (default (70 : Q) (min_similarity (Session.cfg f)))
                (default 2000 (speak_cooldown_ms (Session.cfg f)))
                (Session.frame_w f) (Session.frame_h f) (Session.detections f)
                (Tracker.loop_start t)) as (s0 & outs & Hloop0 & _ & _ & _ & _ & _ & Hwf' & _).
    rewrite Hloop in Hloop0. injection Hloop0 as <-. specialize (Hwf' Hwf).
    pose proof (update_of_loop _ _ _ _ _ _ s Hloop Hwf') as Hup.
    cbn [Tracker.loop_start Tracker.self] in *.
    set (t1 := Tracker.with_objects (Tracker.self s) _) in Hup.
    destruct (IH t1) as (t' & ids & Hrun & Hids & Hnext' & Hkeys').
    { apply wf_filter, Hwf'. }
    assert (Hn1 : next_id t1 = next_id t + Z.of_nat n) by exact Hnext.
    exists t', (Session.allocated t f ++ ids).
    cbn [Session.run]. rewrite Hup. cbn [mbind option_bind fst snd]. rewrite Hrun.
    cbn [mbind option_bind fst snd].
    unfold Session.allocated. rewrite Hall in *.
    rewrite length_app, length_zseq. split_and!.
    + done.
    + rewrite zseq_app. f_equal. rewrite <- Hn1. exact Hids.
    + lia.
    + intros k [Hin|Hin]%Hkeys'.
      * apply keys_filter in Hin. apply Hkeys in Hin as [?|?]; [by left|].
        right. apply elem_of_app. by left.
      * right. apply elem_of_app. by right.
Qed.

(** C8: [reset] clears the track state and puts the id counter back to 1;
    over the [update] calls that follow, the ids given to new tracks are
    1, 2, 3, ... in allocation order (so they are strictly increasing and
    none is used twice, whatever was removed in between), and every track
    still present carries one of them. *)
Theorem C8_ids_sequential_from_one_never_reused t frames :
  next_id (Tracker.reset t) = 1 ∧
  tracked_objects (Tracker.reset t) = [] ∧
  ∃ t' ids,
    Session.run (Tracker.reset t) frames = Some (t', ids) ∧
    (∀ (i : nat) a, ids !! i = Some a → a = 1 + Z.of_nat i) ∧
    next_id t' = 1 + Z.of_nat (length ids) ∧
    ∀ k, k ∈ Py.keys (tracked_objects t') → k ∈ ids.
Proof.
  split; [done|]. split; [done|].
  destruct (session_run_spec frames (Tracker.reset t)) as (t' & ids & Hrun & Hids & Hn & Hk).
  { unfold Py.wf. cbn. apply NoDup_nil_2. }
  exists t', ids. split_and!; try done.
  - intros i a Hi. rewrite Hids in Hi. by apply lookup_zseq in Hi.
  - intros k [Hin|Hin]%Hk; [inversion Hin | done].
Qed.

(* ===================================================================== *)
(** ** Sessions and the tracker of the server                             *)
(* ===================================================================== *)

Lemma step_relabel f tracker e :
  Server.step tracker (relabel f e) = Server.step tracker e.
Proof. by destruct e. Qed.

Lemma tracker_after_app tracker l1 l2 :
  tracker_after tracker (l1 ++ l2) = tracker_after (tracker_after tracker l1) l2.
Proof. revert tracker. induction l1 as [|e l1 IH]; intros tracker; cbn; [done | apply IH]. Qed.

(** C2 (as the code has it): the server holds one process-wide tracker
    that all sessions share.  Every event is handled against that one
    tracker whichever connection it arrives on -- the replies and the
    tracker state of a run do not depend on which client sent which event
    -- and the acceptance of any connection resets the track map and the
    id counter for everybody. *)
Theorem C2_one_tracker_shared_by_all_sessions tracker trace f :
  map snd (Server.run tracker (map (relabel f) trace)) = map snd (Server.run tracker trace) ∧
  tracker_after tracker (map (relabel f) trace) = tracker_after tracker trace ∧
  ∀ c, next_id (tracker_after tracker (trace ++ [Server.Accept c])) = 1 ∧
       tracked_objects (tracker_after tracker (trace ++ [Server.Accept c])) = [].
Proof.
  split_and!.
  - revert tracker. induction trace as [|e rest IH]; intros tracker; [done|].
    cbn [map Server.run]. rewrite step_relabel.
    destruct (Server.step tracker e) as [tracker' [m|]]; cbn [map snd]; by rewrite IH.
  - revert tracker. induction trace as [|e rest IH]; intros tracker; [done|].
    cbn [map tracker_after]. by rewrite step_relabel, IH.
  - intros c. by rewrite tracker_after_app.
Qed.

(** C2, as stated, fails: with two clients connected, the id given to the
    first object of client 1 is 2, because the id counter was advanced by
    client 0; served alone, client 1 receives id 1 for the same frame. *)
Lemma C2_sessions_share_the_id_counter :
  Server.replies_to 1 (Server.run Server.tracker0 Ex.two_clients)
  ≠ Server.replies_to 1 (Server.run Server.tracker0 (Server.events_of 1 Ex.two_clients))
  ∧ (∃ r, Server.replies_to 1 (Server.run Server.tracker0 Ex.two_clients)
          = [Server.Detections 640 480 [r]] ∧ Server.r_id r = Some 2)
  ∧ (∃ r, Server.replies_to 1 (Server.run Server.tracker0 (Server.events_of 1 Ex.two_clients))
          = [Server.Detections 640 480 [r]] ∧ Server.r_id r = Some 1).
Proof.
  split_and!.
  - vm_compute. discriminate.
  - eexists. split; [vm_compute; reflexivity | reflexivity].
  - eexists. split; [vm_compute; reflexivity | reflexivity].
Qed.

(* ===================================================================== *)
(** ** Further properties of the tracker                                  *)
(* ===================================================================== *)

Lemma sorted_keys_wf {V} (d : Py.dict V) : StronglySorted Z.lt (Py.keys d) → Py.wf d.
Proof.
  unfold Py.wf. induction 1 as [|k l Hs IH Hall]; [apply NoDup_nil_2|].
  apply NoDup_cons. split; [|done].
  intros Hin. rewrite Forall_forall in Hall. specialize (Hall k Hin). lia.
Qed.

Lemma sorted_snoc (l : list Z) k :
  StronglySorted Z.lt l → (∀ x, x ∈ l → x < k) → StronglySorted Z.lt (l ++ [k]).
Proof.
  induction 1 as [|x l Hs IH Hall]; intros Hk; cbn.
  - repeat constructor.
  - constructor.
    + apply IH. intros y Hy. apply Hk. by right.
    + apply Forall_app. split; [done|]. constructor; [|constructor].
      apply Hk. left.
Qed.

Lemma sorted_keys_filter {V} (P : Z * V → bool) (d : Py.dict V) :
  StronglySorted Z.lt (Py.keys d) → StronglySorted Z.lt (Py.keys (List.filter P d)).
Proof.
  induction d as [|[k v] r IH]; [done|].
  cbn [Py.keys map fst]. intros [Hs Hall]%StronglySorted_inv.
  fold (Py.keys r) in *. cbn [List.filter]. destruct (P (k, v)); [|auto].
  cbn [Py.keys map fst]. fold (Py.keys (List.filter P r)). constructor; [auto|].
  rewrite Forall_forall in *. intros x Hx. apply Hall. by eapply keys_filter.
Qed.

Lemma elem_of_zseq a k n : a ∈ zseq k n → k ≤ a < k + Z.of_nat n.
Proof.
  revert k. induction n as [|n IH]; intros k H; [inversion H|].
  cbn [zseq] in H. apply elem_of_cons in H as [->|H]; [lia|].
  apply IH in H. lia.
Qed.

Section loop_invariants.
Variables (now : Z) (min_sim : Q) (cooldown : Z) (fw fh : Z).

Abbreviation step := (Tracker.update_detection now min_sim cooldown fw fh).
Abbreviation loop := (Tracker.update_loop now min_sim cooldown fw fh).
Abbreviation objs s := (tracked_objects (Tracker.self s)).

(** The state an iteration leaves behind, whichever branch it takes. *)
Lemma update_detection_stores s d :
  ∃ s' i sp new,
    step s d = Some s' ∧
    Tracker.updated_detections s'
      = Tracker.updated_detections s
        ++ [annotate d i sp (format_spoken_text (d_color d) (d_shape d) (d_size d)
                               (d_similarity d))] ∧
    Tracker.matched_ids s' = Tracker.matched_ids s ∪ {[i]} ∧
    ((d_similarity d < min_sim)%Q → sp = false) ∧
    Py.get i (objs s') = Some new ∧
    centroid new = d_centroid d ∧ last_seen_ms new = now ∧ last_label new = d_label d ∧
    ∀ k, k ≠ i → Py.get k (objs s') = Py.get k (objs s).
Proof.
  assert (Hlow : (d_similarity d < min_sim)%Q → Qle_bool min_sim (d_similarity d) = false).
  { intros Hlt. destruct (Qle_bool _ _) eqn:E; [|done].
    apply Qle_bool_iff in E. exfalso. by apply (Qlt_not_le _ _ Hlt). }
  unfold Tracker.update_detection. cbv zeta.
  destruct (Tracker._find_closest_match _ _ _ _) as [i|] eqn:Hf.
  - destruct (find_closest_match_key _ _ _ _ _ Hf) as [old Hg].
    rewrite Hg. cbn [mbind option_bind].
    set (sp := if Qle_bool _ _ then _ else false).
    eexists _, i, sp,
      (if sp then Tracker.spoke now (Tracker.refresh (d_centroid d) now (d_label d) old)
       else Tracker.refresh (d_centroid d) now (d_label d) old).
    split; [reflexivity|].
    cbn [Tracker.self Tracker.updated_detections Tracker.matched_ids
         tracked_objects Tracker.with_objects].
    split_and!; try done.
    + intros Hlt. subst sp. by rewrite (Hlow Hlt).
    + destruct sp; rewrite !get_modify, !decide_True, Hg by done; reflexivity.
    + by destruct sp.
    + by destruct sp.
    + by destruct sp.
    + intros k Hk. destruct sp; rewrite !get_modify; by rewrite !decide_False.
  - eexists _, (next_id (Tracker.self s)), _, _. split; [reflexivity|].
    cbn [Tracker.self Tracker.updated_detections Tracker.matched_ids tracked_objects].
    split_and!; try done.
    + rewrite get_set, decide_True by done. reflexivity.
    + reflexivity.
    + reflexivity.
    + reflexivity.
    + intros k Hk. rewrite get_set. by rewrite decide_False.
Qed.

(** Key order, key range and the size of the dictionary through one
    iteration. *)
Lemma update_detection_inv s d s' :
  StronglySorted Z.lt (Py.keys (objs s)) →
  (∀ k, k ∈ Py.keys (objs s) → k < next_id (Tracker.self s)) →
  step s d = Some s' →
  StronglySorted Z.lt (Py.keys (objs s')) ∧
  (∀ k, k ∈ Py.keys (objs s') → k < next_id (Tracker.self s')) ∧
  next_id (Tracker.self s) ≤ next_id (Tracker.self s') ≤ next_id (Tracker.self s) + 1 ∧
  Z.of_nat (length (objs s'))
  = Z.of_nat (length (objs s)) + (next_id (Tracker.self s') - next_id (Tracker.self s)).
Proof.
  intros Hs Hk. unfold Tracker.update_detection. cbv zeta.
  destruct (Tracker._find_closest_match _ _ _ _) as [i|].
  - destruct (Py.get _ _); [|done]. cbn [mbind option_bind]. intros [= <-].
    cbn [Tracker.self tracked_objects next_id Tracker.with_objects].
    assert (Hkeys : ∀ b : bool,
      Py.keys (if b then Py.modify i (Tracker.spoke now)
                 (Py.modify i (Tracker.refresh (d_centroid d) now (d_label d)) (objs s))
               else Py.modify i (Tracker.refresh (d_centroid d) now (d_label d)) (objs s))
      = Py.keys (objs s)).
    { intros []; by rewrite !keys_modify. }
    split_and!.
    + by rewrite Hkeys.
    + intros k. rewrite Hkeys. apply Hk.
    + lia.
    + lia.
    + rewrite <- !(length_map fst).
      match goal with |- Z.of_nat (length (map fst ?x)) = _ =>
        change (map fst x) with (Py.keys x) end.
      rewrite Hkeys. unfold Py.keys. lia.
  - intros [= <-]. cbn [Tracker.self tracked_objects next_id].
    assert (Hfresh : next_id (Tracker.self s) ∉ Py.keys (objs s)).
    { intros Hin. apply Hk in Hin. lia. }
    assert (Hset : ∀ v, Py.keys (Py.set (next_id (Tracker.self s)) v (objs s))
                        = Py.keys (objs s) ++ [next_id (Tracker.self s)]).
    { intros v. rewrite keys_set. by rewrite decide_False. }
    split_and!.
    + rewrite Hset. by apply sorted_snoc.
    + intros k. rewrite Hset. intros [Hin|Hin]%elem_of_app.
      * apply Hk in Hin. lia.
      * apply list_elem_of_singleton in Hin. lia.
    + lia.
    + lia.
    + rewrite <- !(length_map fst).
      match goal with |- Z.of_nat (length (map fst ?x)) = _ =>
        change (map fst x) with (Py.keys x) end.
      rewrite Hset, length_app. cbn [length]. unfold Py.keys. lia.
Qed.

Lemma update_loop_inv dets : ∀ s s',
  StronglySorted Z.lt (Py.keys (objs s)) →
  (∀ k, k ∈ Py.keys (objs s) → k < next_id (Tracker.self s)) →
  loop s dets = Some s' →
  StronglySorted Z.lt (Py.keys (objs s')) ∧
  (∀ k, k ∈ Py.keys (objs s') → k < next_id (Tracker.self s')) ∧
  next_id (Tracker.self s) ≤ next_id (Tracker.self s')
    ≤ next_id (Tracker.self s) + Z.of_nat (length dets) ∧
  Z.of_nat (length (objs s'))
  = Z.of_nat (length (objs s)) + (next_id (Tracker.self s') - next_id (Tracker.self s)).
Proof.
  induction dets as [|d rest IH]; intros s s' Hs Hk.
  - intros [= <-]. cbn [length]. split_and!; try done; lia.
  - cbn [Tracker.update_loop]. destruct (step s d) as [s1|] eqn:Hstep; [|done].
    cbn [mbind option_bind]. intros Hloop.
    destruct (update_detection_inv s d s1 Hs Hk Hstep) as (Hs1 & Hk1 & Hn1 & Hl1).
    destruct (IH s1 s' Hs1 Hk1 Hloop) as (Hs' & Hk' & Hn' & Hl').
    cbn [length]. split_and!; try done; lia.
Qed.

(** Every track matched during the loop was last seen at the time of the
    call and carries the centroid and label of a detection that was
    given its id. *)
Lemma update_loop_fresh dets : ∀ s,
  let fresh s := ∀ i, i ∈ Tracker.matched_ids s →
    ∃ tr o, Py.get i (objs s) = Some tr ∧ last_seen_ms tr = now ∧
            o ∈ Tracker.updated_detections s ∧ d_id o = Some i ∧
            centroid tr = d_centroid o ∧ last_label tr = d_label o in
  fresh s → ∀ s', loop s dets = Some s' → fresh s'.
Proof.
  cbv zeta. induction dets as [|d rest IH]; intros s Hfresh s'.
  - by intros [= <-].
  - cbn [Tracker.update_loop].
    destruct (update_detection_stores s d)
      as (s1 & i & sp & new & Hstep & Hout & Hm & _ & Hget & Hc & Hseen & Hl & Hother).
    rewrite Hstep. cbn [mbind option_bind]. apply IH.
    intros k. rewrite Hm, Hout. intros Hk.
    destruct (decide (k = i)) as [->|Hne].
    + exists new, (annotate d i sp (format_spoken_text (d_color d) (d_shape d) (d_size d)
                                      (d_similarity d))).
      split_and!; try done. apply elem_of_app. right. left.
    + apply elem_of_union in Hk as [Hk|Hk]; [|by apply elem_of_singleton in Hk].
      destruct (Hfresh k Hk) as (tr & o & Hg & ? & Ho & ? & ? & ?).
      exists tr, o. rewrite (Hother k Hne). split_and!; try done.
      apply elem_of_app. by left.
Qed.

(** A detection below the threshold is not announced, match or not. *)
Lemma update_loop_quiet dets : ∀ s s',
  loop s dets = Some s' →
  ∃ outs,
    Tracker.updated_detections s' = Tracker.updated_detections s ++ outs ∧
    Forall2 (λ d o, (d_similarity d < min_sim)%Q → d_should_speak o = Some false) dets outs.
Proof.
  induction dets as [|d rest IH]; intros s s'.
  - intros [= <-]. exists []. by rewrite app_nil_r.
  - cbn [Tracker.update_loop].
    destruct (update_detection_stores s d)
      as (s1 & i & sp & new & Hstep & Hout & _ & Hsp & _).
    rewrite Hstep. cbn [mbind option_bind]. intros Hloop.
    destruct (IH s1 s' Hloop) as (outs & Hout' & HF).
    eexists (_ :: outs). rewrite Hout', Hout, <- app_assoc. split; [reflexivity|].
    constructor; [|done]. intros Hlt. cbn. by rewrite (Hsp Hlt).
Qed.

End loop_invariants.



(** [update] on a tracker that satisfies the invariant, with the facts
    its loop state carries over to the result. *)
Lemma update_from_inv t dets fw fh cfg now :
  tracker_inv t →
  ∃ s,
    Tracker.update t dets fw fh cfg now
    = Some (Tracker.with_objects (Tracker.self s)
              (List.filter (λ it, negb (Tracker.expired now (Tracker.matched_ids s) it))
                 (tracked_objects (Tracker.self s))),
            Tracker.updated_detections s) ∧
    StronglySorted Z.lt (Py.keys (tracked_objects (Tracker.self s))) ∧
    (∀ k, k ∈ Py.keys (tracked_objects (Tracker.self s)) →
          1 ≤ k < next_id (Tracker.self s)) ∧
    next_id t ≤ next_id (Tracker.self s) ≤ next_id t + Z.of_nat (length dets) ∧
    Z.of_nat (length (tracked_objects (Tracker.self s)))
    = Z.of_nat (length (tracked_objects t)) + (next_id (Tracker.self s) - next_id t) ∧
    max_distance (Tracker.self s) = max_distance t ∧
    (∀ o, o ∈ Tracker.updated_detections s →
          ∃ i, d_id o = Some i ∧ i ∈ Tracker.matched_ids s) ∧
    (∀ i, i ∈ Tracker.matched_ids s → i ∈ Py.keys (tracked_objects (Tracker.self s))).
Proof.
  intros (Hs & Hn & Hk).
  destruct (update_loop_facts now (default (70 : Q) (min_similarity cfg))
              (default 2000 (speak_cooldown_ms cfg)) fw fh dets (Tracker.loop_start t))
    as (s & outs & Hloop & Hout & HF & Hm & Hmk & _ & _ & Hmax).
  destruct (allocated_loop_spec now (default (70 : Q) (min_similarity cfg))
              (default 2000 (speak_cooldown_ms cfg)) fw fh dets (Tracker.loop_start t))
    as (s0 & n & Hloop0 & Hall & Hnext & Hkeys).
  rewrite Hloop in Hloop0. injection Hloop0 as <-.
  destruct (update_loop_inv now (default (70 : Q) (min_similarity cfg))
              (default 2000 (speak_cooldown_ms cfg)) fw fh dets (Tracker.loop_start t) s)
    as (Hs' & Hk' & Hn' & Hl'); [done | | done |].
  { intros k Hin. apply Hk in Hin. cbn. lia. }
  cbn [Tracker.loop_start Tracker.self Tracker.matched_ids Tracker.updated_detections
       app] in *.
  exists s. split_and!; try done.
  - apply (update_of_loop _ _ _ _ _ _ s Hloop). by apply sorted_keys_wf.
  - intros k Hin. split; [|by apply Hk'].
    apply Hkeys in Hin as [Hin|Hin]; [apply Hk in Hin; lia|].
    rewrite Hall in Hin. apply elem_of_zseq in Hin. lia.
  - lia.
  - lia.
  - intros o Ho. rewrite Hout in Ho.
    assert (∃ i, d_id o = Some i) as [i Hi].
    { apply (Forall2_Forall_transfer _ (λ _, True) (λ o, ∃ i, d_id o = Some i)) in HF.
      - rewrite Forall_forall in HF. by apply HF.
      - by apply Forall_forall.
      - intros d o' _ (i & sp & ->). by exists i. }
    exists i. split; [done|]. apply Hm. right. eauto.
  - apply Hmk. intros i Hi. by apply not_elem_of_empty in Hi.
Qed.

(** X1: [update] keeps the tracker invariant (tracks stored in increasing
    id order, every id in use between 1 and the counter) and the matching
    radius, and every id it returns is the id of a track present after
    the call, below the counter. *)
Theorem update_keeps_tracker_invariant t dets fw fh cfg now :
  tracker_inv t →
  ∃ t' out,
    Tracker.update t dets fw fh cfg now = Some (t', out) ∧
    tracker_inv t' ∧
    max_distance t' = max_distance t ∧
    Forall (λ o, ∃ i, d_id o = Some i ∧ 1 ≤ i < next_id t' ∧
                      i ∈ Py.keys (tracked_objects t')) out.
Proof.
  intros Hinv. pose proof Hinv as (_ & Hn & _).
  destruct (update_from_inv t dets fw fh cfg now Hinv)
    as (s & Hup & Hs & Hk & Hnext & _ & Hmax & Hout & Hmk).
  eexists _, _. split; [exact Hup|].
  cbn [Tracker.with_objects tracked_objects next_id max_distance].
  split_and!; try done.
  - unfold tracker_inv. cbn [Tracker.with_objects tracked_objects next_id].
    split_and!; [by apply sorted_keys_filter | lia |].
    intros k Hin. apply Hk. by eapply keys_filter.
  - apply Forall_forall. intros o Ho. destruct (Hout o Ho) as (i & Hi & Him).
    exists i. pose proof (Hmk i Him) as Hkey. split_and!; [done | by apply Hk.. |].
    apply get_is_Some. apply get_is_Some in Hkey as [tr Htr].
    rewrite get_filter, Htr by (by apply sorted_keys_wf). cbn [mbind option_bind].
    unfold Tracker.expired. cbn [fst snd].
    rewrite bool_decide_eq_false_2 by (intros Hx; by apply Hx). cbn. eauto.
Qed.

Lemma update_keeps_tracker_invariant_witness :
  ∃ t' out,
    Tracker.update Ex.one_cup [Ex.cup (105, 103) 85; Ex.cup (400, 300) 60]
      640 480 Ex.cfg70 5200 = Some (t', out) ∧
    tracker_inv t' ∧
    max_distance t' = max_distance Ex.one_cup ∧
    Forall (λ o, ∃ i, d_id o = Some i ∧ 1 ≤ i < next_id t' ∧
                      i ∈ Py.keys (tracked_objects t')) out.
Proof.
  apply (update_keeps_tracker_invariant Ex.one_cup).
  unfold tracker_inv. cbn. split_and!.
  - repeat constructor.
  - lia.
  - intros k Hk. apply list_elem_of_singleton in Hk. lia.
Defined.

(** X2: a call to [update] with n detections advances the id counter by
    at most n and never moves it back, and the number of tracks after the
    call is at most the number before plus the number of ids taken. *)
Theorem update_growth_is_bounded t dets fw fh cfg now :
  tracker_inv t →
  ∃ t' out,
    Tracker.update t dets fw fh cfg now = Some (t', out) ∧
    next_id t ≤ next_id t' ≤ next_id t + Z.of_nat (length dets) ∧
    Z.of_nat (length (tracked_objects t'))
    ≤ Z.of_nat (length (tracked_objects t)) + (next_id t' - next_id t).
Proof.
  intros Hinv.
  destruct (update_from_inv t dets fw fh cfg now Hinv)
    as (s & Hup & _ & _ & Hnext & Hlen & _).
  eexists _, _. split; [exact Hup|].
  cbn [Tracker.with_objects tracked_objects next_id]. split; [done|].
  pose proof (filter_length_le
    (λ it, negb (Tracker.expired now (Tracker.matched_ids s) it))
    (tracked_objects (Tracker.self s))). lia.
Qed.

Lemma update_growth_is_bounded_witness :
  ∃ t' out,
    Tracker.update Ex.one_cup [Ex.cup (105, 103) 85; Ex.cup (400, 300) 60]
      640 480 Ex.cfg70 5200 = Some (t', out) ∧
    next_id Ex.one_cup ≤ next_id t' ≤ next_id Ex.one_cup + Z.of_nat 2 ∧
    Z.of_nat (length (tracked_objects t'))
    ≤ Z.of_nat (length (tracked_objects Ex.one_cup)) + (next_id t' - next_id Ex.one_cup).
Proof.
  apply (update_growth_is_bounded Ex.one_cup
           [Ex.cup (105, 103) 85; Ex.cup (400, 300) 60]).
  unfold tracker_inv. cbn. split_and!.
  - repeat constructor.
  - lia.
  - intros k Hk. apply list_elem_of_singleton in Hk. lia.
Defined.



Section pick.
Variables (c : Z * Z) (scaled : Q).



End pick.



(** X4: a detection that matches no track creates one under the next id;
    it is announced iff its similarity is at least [min_similarity], and
    the new track's [last_spoken_ms] is the time of the call when it is
    announced and 0 when it is not. *)
Theorem new_track_speak_rule now min_sim cooldown fw fh s d :
  Tracker._find_closest_match (Tracker.self s) (d_centroid d) fw fh = None →
  ∃ s' sp new,
    Tracker.update_detection now min_sim cooldown fw fh s d = Some s' ∧
    Tracker.updated_detections s'
      = Tracker.updated_detections s
        ++ [annotate d (next_id (Tracker.self s)) sp
              (format_spoken_text (d_color d) (d_shape d) (d_size d) (d_similarity d))] ∧
    (sp = true ↔ (min_sim <= d_similarity d)%Q) ∧
    Py.get (next_id (Tracker.self s)) (tracked_objects (Tracker.self s')) = Some new ∧
    last_spoken_ms new = (if sp then now else 0) ∧
    next_id (Tracker.self s') = next_id (Tracker.self s) + 1.
Proof.
  intros Hf. unfold Tracker.update_detection. cbv zeta. rewrite Hf.
  eexists _, (Qle_bool min_sim (d_similarity d)), _. split; [reflexivity|].
  cbn [Tracker.self Tracker.updated_detections tracked_objects next_id].
  split_and!; try done.
  - apply Qle_bool_iff.
  - rewrite get_set, decide_True by done. reflexivity.
  - reflexivity.
Qed.

Lemma new_track_speak_rule_witness :
  ∃ s' sp new,
    Tracker.update_detection 5200 70 2000 640 480 (Tracker.loop_start Ex.one_cup)
      (Ex.cup (400, 300) 60) = Some s' ∧
    Tracker.updated_detections s'
      = Tracker.updated_detections (Tracker.loop_start Ex.one_cup)
        ++ [annotate (Ex.cup (400, 300) 60) 2 sp
              (format_spoken_text "unknown" "cup" "medium" 60)] ∧
    (sp = true ↔ (70 <= 60)%Q) ∧
    Py.get 2 (tracked_objects (Tracker.self s')) = Some new ∧
    last_spoken_ms new = (if sp then 5200 else 0) ∧
    next_id (Tracker.self s') = 2 + 1.
Proof.
  apply (new_track_speak_rule 5200 70 2000 640 480 (Tracker.loop_start Ex.one_cup)
           (Ex.cup (400, 300) 60)).
  vm_compute. reflexivity.
Defined.


(** X5: after [update], every track whose id was returned for a detection
    of the frame has [last_seen_ms] equal to the time of the call, and
    its centroid and label are those of a detection of the frame that was
    given this id. *)
Theorem matched_tracks_are_refreshed t dets fw fh cfg now :
  Py.wf (tracked_objects t) →
  ∃ t' out,
    Tracker.update t dets fw fh cfg now = Some (t', out) ∧
    ∀ o i, o ∈ out → d_id o = Some i →
      ∃ tr o', Py.get i (tracked_objects t') = Some tr ∧ last_seen_ms tr = now ∧
               o' ∈ out ∧ d_id o' = Some i ∧
               centroid tr = d_centroid o' ∧ last_label tr = d_label o'.
Proof.
  intros Hwf.
  destruct (update_loop_facts now (default (70 : Q) (min_similarity cfg))
              (default 2000 (speak_cooldown_ms cfg)) fw fh dets (Tracker.loop_start t))
    as (s & outs & Hloop & Hout & _ & Hm & _ & _ & Hwf' & _).
  specialize (Hwf' Hwf).
  pose proof (update_loop_fresh now (default (70 : Q) (min_similarity cfg))
                (default 2000 (speak_cooldown_ms cfg)) fw fh dets (Tracker.loop_start t))
    as Hfresh. cbv zeta in Hfresh.
  specialize (Hfresh ltac:(intros i Hi; by apply not_elem_of_empty in Hi) s Hloop).
  eexists _, _. split; [apply (update_of_loop _ _ _ _ _ _ s Hloop Hwf')|].
  cbn [Tracker.with_objects tracked_objects].
  intros o i Ho Hid.
  assert (Hin : i ∈ Tracker.matched_ids s).
  { apply Hm. right. exists o. split; [|done]. by rewrite Hout in Ho. }
  destruct (Hfresh i Hin) as (tr & o' & Hg & Hseen & Ho' & Hid' & Hc & Hl).
  exists tr, o'. split_and!; try done.
  rewrite get_filter, Hg by done. cbn [mbind option_bind].
  unfold Tracker.expired. cbn [fst snd].
  by rewrite bool_decide_eq_false_2 by (intros Hx; by apply Hx).
Qed.

Lemma matched_tracks_are_refreshed_witness :
  ∃ t' out,
    Tracker.update Ex.one_cup [Ex.cup (105, 103) 85; Ex.cup (98, 101) 80]
      640 480 Ex.cfg70 5200 = Some (t', out) ∧
    ∀ o i, o ∈ out → d_id o = Some i →
      ∃ tr o', Py.get i (tracked_objects t') = Some tr ∧ last_seen_ms tr = 5200 ∧
               o' ∈ out ∧ d_id o' = Some i ∧
               centroid tr = d_centroid o' ∧ last_label tr = d_label o'.
Proof.
  apply (matched_tracks_are_refreshed Ex.one_cup).
  unfold Py.wf. cbn. apply NoDup_singleton.
Defined.

(** X6: in a call to [update], a detection whose similarity is below the
    request's [min_similarity] (70 when absent) is returned with
    [should_speak] false, whether it matched a track or created one. *)
Theorem below_threshold_is_never_announced t dets fw fh cfg now :
  Py.wf (tracked_objects t) →
  ∃ t' out,
    Tracker.update t dets fw fh cfg now = Some (t', out) ∧
    Forall2 (λ d o, (d_similarity d < default (70 : Q) (min_similarity cfg))%Q →
                    d_should_speak o = Some false) dets out.
Proof.
  intros Hwf.
  destruct (update_loop_facts now (default (70 : Q) (min_similarity cfg))
              (default 2000 (speak_cooldown_ms cfg)) fw fh dets (Tracker.loop_start t))
    as (s & outs & Hloop & _ & _ & _ & _ & _ & Hwf' & _).
  destruct (update_loop_quiet _ _ _ _ _ _ _ _ Hloop) as (outs' & Hout & HF).
  eexists _, _. split; [apply (update_of_loop _ _ _ _ _ _ s Hloop (Hwf' Hwf))|].
  by rewrite Hout.
Qed.

Lemma below_threshold_is_never_announced_witness :
  ∃ t' out,
    Tracker.update Ex.one_cup [Ex.cup (105, 103) 60; Ex.cup (400, 300) 60]
      640 480 Ex.cfg70 9000 = Some (t', out) ∧
    Forall2 (λ d o, (d_similarity d < default (70 : Q) (min_similarity Ex.cfg70))%Q →
                    d_should_speak o = Some false)
      [Ex.cup (105, 103) 60; Ex.cup (400, 300) 60] out.
Proof.
  apply (below_threshold_is_never_announced Ex.one_cup).
  unfold Py.wf. cbn. apply NoDup_singleton.
Defined.

(** X7: a call to [update] with no detection returns the empty list,
    leaves the id counter alone and keeps, in order and unchanged, exactly
    the tracks seen at most 1000 ms before the call. *)
Theorem empty_frame_only_expires t fw fh cfg now :
  Py.wf (tracked_objects t) →
  Tracker.update t [] fw fh cfg now
  = Some (Tracker.with_objects t
            (List.filter (λ it, now - last_seen_ms (snd it) <=? 1000) (tracked_objects t)),
          []).
Proof.
  intros Hwf.
  rewrite (update_of_loop t [] fw fh cfg now (Tracker.loop_start t) eq_refl Hwf).
  cbn [Tracker.loop_start Tracker.self Tracker.matched_ids Tracker.updated_detections].
  do 3 f_equal. apply filter_ext. intros [k tr].
  unfold Tracker.expired, Tracker.timeout_ms. cbn [fst snd].
  rewrite bool_decide_eq_true_2 by apply not_elem_of_empty. cbn [andb].
  by rewrite Z.leb_antisym.
Qed.

Lemma empty_frame_only_expires_witness :
  Tracker.update Ex.one_cup [] 640 480 Ex.cfg70 6200
  = Some (Tracker.with_objects Ex.one_cup
            (List.filter (λ it, 6200 - last_seen_ms (snd it) <=? 1000)
               (tracked_objects Ex.one_cup)),
          []).
Proof.
  apply (empty_frame_only_expires Ex.one_cup).
  unfold Py.wf. cbn. apply NoDup_singleton.
Defined.

(* ===================================================================== *)
(** ** Further properties of the server                                   *)
(* ===================================================================== *)





(* ===================================================================== *)
(** ** Further properties of the detector                                 *)
(* ===================================================================== *)

Lemma min_conf_cases cfg :
  ((3 # 10 < default (30 : Q) (min_similarity cfg) / 100)%Q ∧
   ObjectDetector.min_conf cfg = (default (30 : Q) (min_similarity cfg) / 100)%Q) ∨
  ((default (30 : Q) (min_similarity cfg) / 100 <= 3 # 10)%Q ∧
   ObjectDetector.min_conf cfg = (3 # 10)%Q).
Proof.
  unfold ObjectDetector.min_conf, Py.max.
  destruct (Py.Qltb _ _) eqn:E.
  - left. by apply Qltb_lt in E.
  - right. by apply Qltb_ge in E.
Qed.

(** For every request the threshold of the confidence filter is the
    larger of 0.30 and [min_similarity / 100] (30 when absent). *)
Lemma min_conf_is_the_larger_of_floor_and_request cfg :
  (3 # 10 <= ObjectDetector.min_conf cfg)%Q ∧
  (default (30 : Q) (min_similarity cfg) / 100 <= ObjectDetector.min_conf cfg)%Q ∧
  (ObjectDetector.min_conf cfg = (3 # 10)%Q ∨
   ObjectDetector.min_conf cfg = (default (30 : Q) (min_similarity cfg) / 100)%Q).
Proof.
  destruct (min_conf_cases cfg) as [[Hlt ->]|[Hle ->]].
  - split_and!; [by apply Qlt_le_weak | apply Qle_refl | by right].
  - split_and!; [apply Qle_refl | done | by left].
Qed.




Lemma inject_Z_nonneg n : 0 ≤ n → (0 <= inject_Z n)%Q.
Proof. intros H. unfold Qle. cbn. lia. Qed.






Lemma insert_by_confidence_perm d l :
  Permutation (ObjectDetector.insert_by_confidence d l) (d :: l).
Proof.
  induction l as [|e r IH]; cbn; [done|].
  destruct (Py.Qltb _ _); [|done].
  rewrite IH. apply perm_swap.
Qed.

Lemma insert_by_confidence_sorted d l :
  StronglySorted by_confidence l →
  StronglySorted by_confidence (ObjectDetector.insert_by_confidence d l).
Proof.
  induction 1 as [|e r Hs IH Hall]; cbn.
  - repeat constructor.
  - destruct (Py.Qltb _ _) eqn:E.
    + apply Qltb_lt in E. constructor; [done|].
      rewrite insert_by_confidence_perm. constructor; [|done].
      unfold by_confidence. by apply Qlt_le_weak.
    + apply Qltb_ge in E. constructor; [by constructor|].
      constructor; [done|].
      eapply Forall_impl; [exact Hall|]. unfold by_confidence. intros x Hx.
      by eapply Qle_trans.
Qed.

Lemma insert_by_confidence_head d l :
  Forall (by_confidence d) l → ObjectDetector.insert_by_confidence d l = d :: l.
Proof.
  destruct l as [|e r]; [done|]. intros [He _]%Forall_cons. cbn.
  destruct (Py.Qltb _ _) eqn:E; [|done].
  apply Qltb_lt in E. unfold by_confidence in He. exfalso. by apply (Qlt_not_le _ _ E).
Qed.

Lemma sorted_by_confidence_fixed l :
  StronglySorted by_confidence l → ObjectDetector.sorted_by_confidence l = l.
Proof.
  induction 1 as [|e r Hs IH Hall]; [done|].
  unfold ObjectDetector.sorted_by_confidence in *. cbn [fold_right]. rewrite IH.
  by apply insert_by_confidence_head.
Qed.

Lemma sorted_by_confidence_spec built :
  Permutation (ObjectDetector.sorted_by_confidence built) built ∧
  StronglySorted by_confidence (ObjectDetector.sorted_by_confidence built).
Proof.
  unfold ObjectDetector.sorted_by_confidence.
  induction built as [|d l [IHp IHs]]; cbn; [split; [done | constructor]|].
  split.
  - by rewrite insert_by_confidence_perm, IHp.
  - by apply insert_by_confidence_sorted.
Qed.

(** X11: the list [detect_objects] returns is a rearrangement of the
    dictionaries built for the kept boxes, in order of decreasing
    confidence; sorting it again leaves it as it is. *)
Theorem detections_are_sorted_by_confidence kept :
  let built := map (λ k, ObjectDetector.make_detection (fst (fst k)) (snd (fst k)) (snd k))
                 kept in
  Permutation (ObjectDetector.detections_of kept) built ∧
  StronglySorted by_confidence (ObjectDetector.detections_of kept) ∧
  ObjectDetector.sorted_by_confidence (ObjectDetector.detections_of kept)
  = ObjectDetector.detections_of kept.
Proof.
  cbv zeta. unfold ObjectDetector.detections_of.
  set (built := map _ kept). clearbody built.
  destruct (sorted_by_confidence_spec built) as [Hperm Hsorted].
  split_and!; [done | done | by apply sorted_by_confidence_fixed].
Qed.

Lemma sorted_transfer (l k : list detection) :
  Forall2 (λ d o, d_confidence o = d_confidence d) l k →
  StronglySorted by_confidence l → StronglySorted by_confidence k.
Proof.
  induction 1 as [|d o l k Hdo HF IH]; [done|].
  intros [Hs Hall]%StronglySorted_inv. constructor; [auto|].
  clear IH Hs. induction HF as [|d' o' l k Hdo' HF IH]; [constructor|].
  apply Forall_cons in Hall as [Hd' Hall]. constructor; [|auto].
  unfold by_confidence in *. by rewrite Hdo, Hdo'.
Qed.

(** X12: when the tracker is fed the list [detect_objects] returns, the
    annotated list it hands back still has one element per kept box and
    is still ordered by decreasing confidence. *)
Theorem tracked_detections_stay_sorted t kept fw fh cfg now :
  Py.wf (tracked_objects t) →
  ∃ t' out,
    Tracker.update t (ObjectDetector.detections_of kept) fw fh cfg now = Some (t', out) ∧
    length out = length kept ∧
    StronglySorted by_confidence out.
Proof.
  intros Hwf.
  destruct (update_returns_annotated t (ObjectDetector.detections_of kept) fw fh cfg now Hwf)
    as (t' & out & Hup & HF).
  exists t', out. split; [done|].
  destruct (sorted_by_confidence_spec
              (map (λ k, ObjectDetector.make_detection (fst (fst k)) (snd (fst k)) (snd k))
                 kept)) as (Hperm & Hsorted).
  fold (ObjectDetector.detections_of kept) in Hperm, Hsorted.
  split.
  - rewrite <- (Forall2_length _ _ _ HF). rewrite (Permutation_length Hperm).
    by rewrite length_map.
  - eapply sorted_transfer; [|exact Hsorted].
    eapply Forall2_impl; [exact HF|]. by intros d o (i & sp & ->).
Qed.

Lemma tracked_detections_stay_sorted_witness :
  ∃ t' out,
    Tracker.update Ex.one_cup
      (ObjectDetector.detections_of
         [((90, 80, 20, 40), 55 # 100, 9%nat); ((300, 200, 50, 50), 87 # 100, 41%nat)])
      640 480 Ex.cfg70 5200 = Some (t', out) ∧
    length out = 2%nat ∧
    StronglySorted by_confidence out.
Proof.
  apply (tracked_detections_stay_sorted Ex.one_cup
           [((90, 80, 20, 40), 55 # 100, 9%nat); ((300, 200, 50, 50), 87 # 100, 41%nat)]).
  unfold Py.wf. cbn. apply NoDup_singleton.
Defined.
Lemma round1_cases x :
  ∃ n : Z, Py.round1 x = (inject_Z n / 10)%Q ∧
           (inject_Z n - (1 # 2) <= x * 10)%Q ∧ (x * 10 <= inject_Z n + (1 # 2))%Q.
Proof.
  unfold Py.round1. cbv zeta.
  set (y := (x * 10)%Q). set (f := Qfloor y).
  pose proof (Qfloor_le y) as Hlo. pose proof (Qlt_floor y) as Hhi. fold f in Hlo, Hhi.
  rewrite inject_Z_plus in Hhi. change (inject_Z 1) with 1%Q in Hhi.
  destruct (Py.Qltb (y - inject_Z f) (1 # 2)) eqn:E1.
  - apply Qltb_lt in E1. exists f. split; [done|]. split; lra.
  - apply Qltb_ge in E1.
    assert (∀ b : bool, ∃ n, (if b then f else f + 1) = n ∧
              ((b = true → (y - inject_Z f <= 1 # 2)%Q) →
               (inject_Z n - (1 # 2) <= y)%Q ∧ (y <= inject_Z n + (1 # 2))%Q)) as Hgen.
    { intros [].
      - exists f. split; [done|]. intros Hb. specialize (Hb eq_refl). split; lra.
      - exists (f + 1). split; [done|]. intros _.
        rewrite inject_Z_plus. change (inject_Z 1) with 1%Q. split; lra. }
    destruct (Py.Qltb (1 # 2) (y - inject_Z f)) eqn:E2.
    + apply Qltb_lt in E2. exists (f + 1). split; [done|].
      rewrite inject_Z_plus. change (inject_Z 1) with 1%Q. split; lra.
    + apply Qltb_ge in E2.
      destruct (Hgen (Z.even f)) as (n & -> & Hn). exists n. split; [done|].
      apply Hn. intros _. done.
Qed.

Lemma round1_close x : (Qabs (Py.round1 x - x) <= 1 # 20)%Q.
Proof.
  destruct (round1_cases x) as (n & -> & Hlo & Hhi).
  apply Qabs_Qle_condition. unfold Qdiv. change (/ 10)%Q with (1 # 10)%Q.
  split; lra.
Qed.

Lemma round1_range x : (0 <= x)%Q → (x <= 100)%Q → (0 <= Py.round1 x <= 100)%Q.
Proof.
  intros H0 H100. destruct (round1_cases x) as (n & -> & Hlo & Hhi).
  assert (0 ≤ n ≤ 1000) as Hn.
  { assert (- (1 # 2) <= inject_Z n)%Q as H1 by lra.
    assert (inject_Z n <= 2001 # 2)%Q as H2 by lra.
    unfold Qle in H1, H2. cbn in H1, H2. lia. }
  unfold Qdiv. change (/ 10)%Q with (1 # 10)%Q.
  assert (0 <= inject_Z n)%Q by (apply inject_Z_nonneg; lia).
  assert (inject_Z n <= 1000)%Q by (unfold Qle; cbn; lia).
  split; lra.
Qed.

(** X13: the [similarity] of a detection built by the detector is a whole
    number of tenths, at most 0.05 away from 100 times the confidence. *)
Theorem similarity_is_the_rounded_percentage box conf cid :
  let d := ObjectDetector.make_detection box conf cid in
  (Qabs (d_similarity d - conf * 100) <= 1 # 20)%Q ∧
  ∃ n : Z, d_similarity d = (inject_Z n / 10)%Q.
Proof.
  destruct box as [[[x y] bw] bh]. cbv zeta. cbn [ObjectDetector.make_detection d_similarity].
  split; [apply round1_close|].
  destruct (round1_cases (conf * 100)) as (n & Hn & _). eauto.
Qed.

(** X14: for a confidence between 0 and 1 the [similarity] of the
    detection built by the detector lies between 0 and 100. *)
Theorem similarity_is_a_percentage box conf cid :
  (0 <= conf)%Q → (conf <= 1)%Q →
  (0 <= d_similarity (ObjectDetector.make_detection box conf cid) <= 100)%Q.
Proof.
  intros H0 H1. destruct box as [[[x y] bw] bh].
  cbn [ObjectDetector.make_detection d_similarity]. apply round1_range; lra.
Qed.

Lemma similarity_is_a_percentage_witness :
  (0 <= d_similarity (ObjectDetector.make_detection (10, 20, 31, 40)%Z (87654 # 100000) 9)
   <= 100)%Q.
Proof.
  apply similarity_is_a_percentage; vm_compute; discriminate.
Defined.

(* ===================================================================== *)
(** ** Further properties of the frame preparation                        *)
(* ===================================================================== *)

Lemma split_no_sep sep s : Py.contains sep s = false → Py.split sep s = [s].
Proof.
  induction s as [|c r IH]; cbn [Py.contains Py.split]; [done|].
  destruct (Ascii.eqb c sep); [done|]. intros H. by rewrite (IH H).
Qed.

Lemma split_app_sep sep p q :
  Py.contains sep p = false →
  Py.split sep (p ++ String sep q) = p :: Py.split sep q.
Proof.
  induction p as [|c r IH]; cbn [Py.contains].
  - intros _. change (Py.split sep (String sep q) = EmptyString :: Py.split sep q).
    cbn [Py.split]. by rewrite Ascii.eqb_refl.
  - change (String c r +:+ String sep q) with (String c (r +:+ String sep q)).
    cbn [Py.split]. destruct (Ascii.eqb c sep); [done|]. intros H. by rewrite (IH H).
Qed.

Lemma split_pieces sep s : Forall (λ piece, Py.contains sep piece = false) (Py.split sep s).
Proof.
  induction s as [|c r IH]; cbn [Py.split].
  - by repeat constructor.
  - destruct (Ascii.eqb c sep) eqn:E; [by constructor|].
    destruct (Py.split sep r) as [|piece pieces].
    + repeat constructor. cbn [Py.contains]. by rewrite E.
    + apply Forall_cons in IH as [Hp Hps]. constructor; [|done].
      cbn [Py.contains]. by rewrite E.
Qed.

Lemma split_nonempty sep s : Py.split sep s ≠ [].
Proof.
  destruct s as [|c r]; cbn [Py.split]; [done|].
  destruct (Ascii.eqb c sep); [done|]. by destruct (Py.split sep r).
Qed.

Lemma split_length sep s :
  Py.contains sep s = true → (2 ≤ length (Py.split sep s))%nat.
Proof.
  induction s as [|c r IH]; cbn [Py.contains Py.split]; [done|].
  destruct (Ascii.eqb c sep).
  - intros _. pose proof (split_nonempty sep r).
    destruct (Py.split sep r); [done|]. cbn. lia.
  - intros H. specialize (IH H). destruct (Py.split sep r); cbn in *; lia.
Qed.

(** X15: the removal of the data-URL prefix never fails; its result holds
    no comma, and a string without a comma is returned as it is. *)
Theorem strip_data_url_returns_a_comma_free_string s :
  ∃ r, Server.strip_data_url s = Some r ∧
       Py.contains "," r = false ∧
       (Py.contains "," s = false → r = s).
Proof.
  unfold Server.strip_data_url. destruct (Py.contains "," s) eqn:E.
  - pose proof (split_length _ _ E) as Hlen. pose proof (split_pieces "," s) as Hp.
    destruct (Py.split "," s) as [|p0 [|p1 ps]]; cbn in Hlen; try lia.
    exists p1. cbn. split_and!; [done | | done].
    apply Forall_cons in Hp as [_ Hp]. by apply Forall_cons in Hp as [Hp _].
  - exists s. done.
Qed.

(** X16: for a data URL -- a prefix without a comma, a comma, and a
    payload without a comma, as base64 text is -- the removal of the
    prefix returns exactly the payload. *)
Theorem strip_data_url_returns_the_payload prefix payload :
  Py.contains "," prefix = false → Py.contains "," payload = false →
  Server.strip_data_url (prefix ++ String "," payload) = Some payload.
Proof.
  intros Hp Hq. unfold Server.strip_data_url.
  assert (Py.contains "," (prefix ++ String "," payload) = true) as ->.
  { clear Hq. induction prefix as [|c r IH]; [done|].
    change (String c r +:+ String "," payload) with (String c (r +:+ String "," payload)).
    cbn [Py.contains] in *. destruct (Ascii.eqb c ","); [done | auto]. }
  rewrite split_app_sep, split_no_sep by done. done.
Qed.

Lemma strip_data_url_returns_the_payload_witness :
  Server.strip_data_url ("data:image/jpeg;base64" ++ String "," "/9j/4AAQSkZJRg==")
  = Some "/9j/4AAQSkZJRg=="%string.
Proof.
  apply strip_data_url_returns_the_payload; reflexivity.
Defined.



(* ===================================================================== *)
(** ** Properties of the scoring helpers of utils.py                      *)
(* ===================================================================== *)

Ltac split_ifs :=
  repeat (cbn [andb orb];
          match goal with
          | |- context [(?a <? ?b)%Z] => destruct (Z.ltb_spec a b)
          | |- context [(?a <=? ?b)%Z] => destruct (Z.leb_spec a b)
          end); cbn [andb orb].

(** X18: the color name computed from an HSV triple is always one of the
    colors listed in [COLOR_ADJACENCY], for all integers, in range or
    not. *)
Theorem hsv_name_is_a_known_color h s v :
  is_Some (Utils.COLOR_ADJACENCY !! Utils.hsv_to_color_name h s v).
Proof.
  unfold Utils.hsv_to_color_name. split_ifs; by (eexists; vm_compute; reflexivity).
Qed.

(** X19: for a hue that is not negative, the name is achromatic (black,
    white or gray) exactly when the value is below 50 or the saturation
    below 30: the final "gray" fallback is only reached by a negative
    hue. *)
Theorem hsv_gray_fallback_needs_a_negative_hue h s v :
  0 ≤ h →
  (Utils.hsv_to_color_name h s v = "black"%string ∨
   Utils.hsv_to_color_name h s v = "white"%string ∨
   Utils.hsv_to_color_name h s v = "gray"%string) ↔ v < 50 ∨ s < 30.
Proof.
  intros Hh. unfold Utils.hsv_to_color_name. split_ifs;
    (split; [intros [?|[?|?]]; first [discriminate | lia] | intros; first [lia | eauto]]).
Qed.

Lemma adjacency_symmetric c1 c2 :
  c2 ∈ default [] (Utils.COLOR_ADJACENCY !! c1) → c1 ∈ default [] (Utils.COLOR_ADJACENCY !! c2).
Proof.
  destruct (Utils.COLOR_ADJACENCY !! c1) as [l|] eqn:E;
    [|by intros H; inversion H].
  unfold Utils.COLOR_ADJACENCY in E. apply elem_of_list_to_map_2 in E.
  intros H. cbn [from_option Datatypes.id] in H.
  repeat (apply elem_of_cons in E as [E'|E]; [injection E' as -> ->|]);
    [..|by inversion E];
    repeat (apply elem_of_cons in H as [->|H]);
    first [by inversion H | by (apply (bool_decide_unpack _); vm_compute)].
Qed.

(** X20: the color similarity is symmetric in its two arguments, for all
    strings, and it is 1.0 exactly when the two names are equal. *)
Theorem color_similarity_is_symmetric c1 c2 :
  Utils.color_similarity c1 c2 = Utils.color_similarity c2 c1 ∧
  (Utils.color_similarity c1 c2 = 1%Q ↔ c1 = c2).
Proof.
  unfold Utils.color_similarity. split.
  - destruct (String.eqb_spec c1 c2) as [->|Hne].
    + by rewrite String.eqb_refl.
    + destruct (String.eqb_spec c2 c1) as [->|_]; [done|].
      destruct (bool_decide (c2 ∈ _)) eqn:E1; destruct (bool_decide (c1 ∈ _)) eqn:E2; try done.
      * apply bool_decide_eq_true in E1. apply bool_decide_eq_false in E2.
        exfalso. by apply E2, adjacency_symmetric.
      * apply bool_decide_eq_true in E2. apply bool_decide_eq_false in E1.
        exfalso. by apply E1, adjacency_symmetric.
  - destruct (String.eqb_spec c1 c2) as [->|Hne]; [done|].
    destruct (bool_decide _); split; try done; discriminate.
Qed.

Lemma py_max_range z : (z <= 1)%Q → (0 <= Py.max 0 z <= 1)%Q.
Proof.
  intros Hz. unfold Py.max. destruct (Py.Qltb 0 z) eqn:E.
  - apply Qltb_lt in E. split; [by apply Qlt_le_weak | done].
  - split; [apply Qle_refl | discriminate].
Qed.

Lemma size_score_range r center :
  (0 <= Py.max 0 (1 - Qabs (r - center) / (20 # 100)) <= 1)%Q.
Proof.
  apply py_max_range.
  pose proof (Qabs_nonneg (r - center)) as Ha.
  set (a := Qabs (r - center)) in *. clearbody a.
  assert (0 <= a / (20 # 100))%Q as Hd.
  { unfold Qdiv. apply Qmult_le_0_compat; [done | discriminate]. }
  set (t := (a / (20 # 100))%Q) in *. clearbody t. lra.
Qed.

Lemma size_similarity_range r b q :
  Utils.size_similarity r b = Some q → (0 <= q <= 1)%Q.
Proof.
  unfold Utils.size_similarity. destruct (Utils.SIZE_CENTERS !! b) as [center|]; [|done].
  cbn [mbind option_bind]. cbv zeta. intros [= Hq]. rewrite <- Hq.
  apply size_score_range.
Qed.

Lemma size_centers_keys b :
  Utils.SIZE_CENTERS !! b = None ↔
  b ≠ "small"%string ∧ b ≠ "medium"%string ∧ b ≠ "large"%string.
Proof.
  unfold Utils.SIZE_CENTERS. rewrite <- not_elem_of_list_to_map. cbn [fmap list_fmap fst].
  rewrite !not_elem_of_cons. split.
  - intros (? & ? & ? & _). done.
  - intros (? & ? & ?). split_and!; try done. apply not_elem_of_nil.
Qed.

(** X21: [size_similarity] raises [KeyError] exactly for a bucket other
    than small, medium and large; on the bucket [get_size_bucket] gives
    for the same ratio it always returns, a score between 0 and 1. *)
Theorem size_similarity_is_defined_on_the_buckets r b :
  (Utils.size_similarity r b = None ↔
   b ≠ "small"%string ∧ b ≠ "medium"%string ∧ b ≠ "large"%string) ∧
  ∃ q, Utils.size_similarity r (Utils.get_size_bucket r) = Some q ∧ (0 <= q <= 1)%Q.
Proof.
  split.
  - rewrite <- size_centers_keys. unfold Utils.size_similarity.
    destruct (Utils.SIZE_CENTERS !! b); cbn [mbind option_bind]; split; done.
  - destruct (Utils.size_similarity r (Utils.get_size_bucket r)) as [q|] eqn:E.
    + exists q. split; [done|]. by eapply size_similarity_range.
    + exfalso. assert (Utils.SIZE_CENTERS !! Utils.get_size_bucket r = None) as Hn.
      { unfold Utils.size_similarity in E.
        destruct (Utils.SIZE_CENTERS !! _); [done | done]. }
      apply size_centers_keys in Hn as (H1 & H2 & H3).
      unfold Utils.get_size_bucket in *.
      destruct (Py.Qltb r (3 # 100)); [done|]. destruct (Py.Qltb r (12 # 100)); done.
Qed.





Lemma hsv_gray_fallback_witness :
  (Utils.hsv_to_color_name 22 150 200 = "black"%string ∨
   Utils.hsv_to_color_name 22 150 200 = "white"%string ∨
   Utils.hsv_to_color_name 22 150 200 = "gray"%string) ↔ 200 < 50 ∨ 150 < 30.
Proof.
  apply hsv_gray_fallback_needs_a_negative_hue. lia.
Defined.

